(** * SkyFlow-AeroETL: the OpenSky extract / transform / statistics pipeline

    A shallow embedding of [src/sky_data_etl.py] (class [OpenSkyETL]) and the
    properties of its extraction mapping, its defaulting transform, its
    statistics and its orchestration.

    Conventions of the embedding.
    - A JSON scalar of the upstream payload is a value of [json]; Python's
      [bool(v)], [str(v)] and [float(v)] are [truthy], [py_str] and
      [py_float].
    - A Python [float] is a binary64 number, here a [spec_float] of the
      Standard Library with [prec = 53] and [emax = 1024].
    - A Python [str] is the list of its code points.
    - A [datetime] is the number of microseconds since the epoch.
    - A raised exception is the [Raise] outcome of a computation; the wall
      clock and the run's log are threaded through the monad [M]. *)

From Stdlib Require Import ZArith List String Ascii Bool Lia.
From Stdlib Require Import Permutation Sorted QArith DecimalString.
From Stdlib Require Import Floats.SpecFloat.
Import ListNotations.

Local Open Scope Z_scope.

(** ** Python strings *)

Definition pystr := list N.

Definition py (s : string) : pystr := map N_of_ascii (list_ascii_of_string s).

Definition UNKNOWN : pystr := py "UNKNOWN".

(** [str.isspace] on one code point: the characters [str.strip()] removes. *)
Definition is_space (c : N) : bool :=
  ((9 <=? c) && (c <=? 13) || (28 <=? c) && (c <=? 32)
   || (c =? 133) || (c =? 160) || (c =? 5760)
   || (8192 <=? c) && (c <=? 8202)
   || (c =? 8232) || (c =? 8233) || (c =? 8239) || (c =? 8287)
   || (c =? 12288))%N.

Fixpoint lstrip (s : pystr) : pystr :=
  match s with
  | c :: s' => if is_space c then lstrip s' else s
  | [] => []
  end.

Definition rstrip (s : pystr) : pystr := rev (lstrip (rev s)).

Definition strip (s : pystr) : pystr := rstrip (lstrip s).

(** ** Python floats (binary64) *)

Definition float := spec_float.

Definition prec : Z := 53.
Definition emax : Z := 1024.

Definition float_of_Z (z : Z) : float := binary_normalize prec emax z 0 false.

Definition fzero : float := S754_zero false.
Definition fone : float := float_of_Z 1.

Definition fadd : float -> float -> float := SFadd prec emax.
Definition fmul : float -> float -> float := SFmul prec emax.
Definition fdiv : float -> float -> float := SFdiv prec emax.

Definition is_nan (f : float) : bool :=
  match f with S754_nan => true | _ => false end.

(** ** JSON scalars, as [response.json()] delivers them *)

Inductive json : Type :=
| JNull
| JBool (b : bool)
| JInt (z : Z)
| JFloat (f : float)
| JStr (s : pystr).

Definition is_None (v : json) : bool :=
  match v with JNull => true | _ => false end.

(** [bool(v)]: [None], [False], zero and the empty string are falsy. *)
Definition truthy (v : json) : bool :=
  match v with
  | JNull => false
  | JBool b => b
  | JInt z => negb (z =? 0)
  | JFloat (S754_zero _) => false
  | JFloat _ => true
  | JStr [] => false
  | JStr _ => true
  end.

(** ** Exceptions and outcomes *)

Inductive exn : Type :=
| ValueError
| TypeError
| OverflowError
| OSError
| IndexError
| ApiError (status : Z)
| WriteError.

Inductive outcome (A : Type) : Type :=
| Ok (a : A)
| Raise (e : exn).

Arguments Ok {A} a.
Arguments Raise {A} e.

(** The handler clause [except (ValueError, TypeError)]. *)
Definition value_or_type_error (e : exn) : bool :=
  match e with
  | ValueError | TypeError => true
  | _ => false
  end.

(** ** The schema and the records

    [self.schema]: the seventeen columns with their types; only
    [ingestion_time] is declared non-nullable. *)

Definition datetime := Z.

Inductive column : Type :=
| Icao24 | Callsign | Origin_country | Time_position | Last_contact
| Longitude | Latitude | Baro_altitude | On_ground | Velocity | True_track
| Vertical_rate | Geo_altitude | Squawk | Spi | Position_source
| Ingestion_time.

Inductive data_type : Type :=
| StringType | DoubleType | BooleanType | TimestampType.

Record StructField : Type := mkField {
  name : column;
  dataType : data_type;
  nullable : bool
}.

Definition schema : list StructField :=
  [ mkField Icao24 StringType true;
    mkField Callsign StringType true;
    mkField Origin_country StringType true;
    mkField Time_position TimestampType true;
    mkField Last_contact TimestampType true;
    mkField Longitude DoubleType true;
    mkField Latitude DoubleType true;
    mkField Baro_altitude DoubleType true;
    mkField On_ground BooleanType true;
    mkField Velocity DoubleType true;
    mkField True_track DoubleType true;
    mkField Vertical_rate DoubleType true;
    mkField Geo_altitude DoubleType true;
    mkField Squawk StringType true;
    mkField Spi BooleanType true;
    mkField Position_source StringType true;
    mkField Ingestion_time TimestampType false ].

(** One record of a batch: the dictionary [extract] builds, and a row of the
    data frame made from it. Every field holds a value of its column's type
    or [None]. *)
Record Flight : Type := mkFlight {
  icao24 : option pystr;
  callsign : option pystr;
  origin_country : option pystr;
  time_position : option datetime;
  last_contact : option datetime;
  longitude : option float;
  latitude : option float;
  baro_altitude : option float;
  on_ground : option bool;
  velocity : option float;
  true_track : option float;
  vertical_rate : option float;
  geo_altitude : option float;
  squawk : option pystr;
  spi : option bool;
  position_source : option pystr;
  ingestion_time : option datetime
}.

Definition DataFrame := list Flight.

Definition is_some {A} (o : option A) : bool :=
  match o with Some _ => true | None => false end.

(** [col(c).isNotNull()] on one row. *)
Definition isNotNull (c : column) (r : Flight) : bool :=
  match c with
  | Icao24 => is_some (icao24 r)
  | Callsign => is_some (callsign r)
  | Origin_country => is_some (origin_country r)
  | Time_position => is_some (time_position r)
  | Last_contact => is_some (last_contact r)
  | Longitude => is_some (longitude r)
  | Latitude => is_some (latitude r)
  | Baro_altitude => is_some (baro_altitude r)
  | On_ground => is_some (on_ground r)
  | Velocity => is_some (velocity r)
  | True_track => is_some (true_track r)
  | Vertical_rate => is_some (vertical_rate r)
  | Geo_altitude => is_some (geo_altitude r)
  | Squawk => is_some (squawk r)
  | Spi => is_some (spi r)
  | Position_source => is_some (position_source r)
  | Ingestion_time => is_some (ingestion_time r)
  end.

(** The value of a double column in a row ([None] also for a column of
    another type). *)
Definition get_double (c : column) (r : Flight) : option float :=
  match c with
  | Longitude => longitude r
  | Latitude => latitude r
  | Baro_altitude => baro_altitude r
  | Velocity => velocity r
  | True_track => true_track r
  | Vertical_rate => vertical_rate r
  | Geo_altitude => geo_altitude r
  | _ => None
  end.

(** The descriptor [calculate_statistics] stores for one column. *)
Record descriptor : Type := mkDescriptor {
  d_mean : option float;
  d_min : option float;
  d_max : option float;
  d_count : nat;
  d_mode : option float
}.

(** ** The platform: what the interpreter, the clock and the store provide

    [float_of_str s] is [float(s)] on a string ([None]: [ValueError]),
    [str_of_float f] is [str(f)], [wall n] is what the [n]-th reading of the
    clock returns, and [sink df] is the outcome of the append to the store
    ([None]: written). *)
Record platform : Type := {
  float_of_str : pystr -> option float;
  str_of_float : float -> pystr;
  wall : nat -> datetime;
  sink : DataFrame -> option exn
}.

(** ** The monad of the run: clock, log, exceptions *)

Inductive stage : Type := Extract | Transform | Statistics | Load | SparkStop.

Inductive message : Type :=
| MsgStarting
| MsgNoValidData
| MsgStatisticsFor (c : column)
| MsgMean (v : option float)
| MsgMin (v : option float)
| MsgMax (v : option float)
| MsgCount (n : nat)
| MsgMode (v : option float)
| MsgNumberOfRecords (n : nat)
| MsgLoading
| MsgCompleted
| MsgNoValidRecords
| MsgError (e : exn).

Inductive event : Type :=
| Call (s : stage)
| Print (m : message).

Record world : Type := mkWorld {
  ticks : nat;
  log : list event
}.

Definition M (A : Type) : Type := world -> outcome A * world.

Definition ret {A} (a : A) : M A := fun w => (Ok a, w).

Definition raise {A} (e : exn) : M A := fun w => (Raise e, w).

Definition bind {A B} (c : M A) (k : A -> M B) : M B :=
  fun w =>
    match c w with
    | (Ok a, w') => k a w'
    | (Raise e, w') => (Raise e, w')
    end.

Notation "x <- c ;; k" := (bind c (fun x => k))
  (at level 61, c at next level, right associativity).
Notation "c ;;; k" := (bind c (fun _ => k))
  (at level 61, right associativity).

Definition lift {A} (r : outcome A) : M A := fun w => (r, w).

(** [try: c  except (ValueError, TypeError): h] *)
Definition try_except {A} (c : M A) (h : M A) : M A :=
  fun w =>
    match c w with
    | (Raise e, w') => if value_or_type_error e then h w' else (Raise e, w')
    | r => r
    end.

(** [try: c  except Exception as e: h e; raise] *)
Definition try_reraise {A} (c : M A) (h : exn -> M unit) : M A :=
  fun w =>
    match c w with
    | (Raise e, w') =>
        match h e w' with
        | (Ok _, w'') => (Raise e, w'')
        | (Raise e', w'') => (Raise e', w'')
        end
    | r => r
    end.

(** [try: c  finally: f] *)
Definition try_finally {A} (c : M A) (f : M unit) : M A :=
  fun w =>
    match c w with
    | (r, w') =>
        match f w' with
        | (Ok _, w'') => (r, w'')
        | (Raise e, w'') => (Raise e, w'')
        end
    end.

Definition emit (e : event) : M unit :=
  fun w => (Ok tt, mkWorld (ticks w) (log w ++ [e])).

Definition world0 : world := mkWorld 0 [].

(** ** Python built-ins used by the coercions *)

Section Builtins.

Variable P : platform.

(** [datetime.now()]: one reading of the wall clock. *)
Definition now : M datetime :=
  fun w => (Ok (wall P (ticks w)), mkWorld (S (ticks w)) (log w)).

(** [str(v)] *)
Definition py_str (v : json) : pystr :=
  match v with
  | JNull => py "None"
  | JBool true => py "True"
  | JBool false => py "False"
  | JInt z => py (NilZero.string_of_int (Z.to_int z))
  | JFloat f => str_of_float P f
  | JStr s => s
  end.

(** [float(v)]: an [int] beyond the binary64 range raises [OverflowError],
    an unparsable string [ValueError], [None] [TypeError]. *)
Definition py_float (v : json) : outcome float :=
  match v with
  | JNull => Raise TypeError
  | JBool b => Ok (if b then fone else fzero)
  | JInt z =>
      match float_of_Z z with
      | S754_infinity _ => Raise OverflowError
      | f => Ok f
      end
  | JFloat f => Ok f
  | JStr s =>
      match float_of_str P s with
      | Some f => Ok f
      | None => Raise ValueError
      end
  end.

End Builtins.

(** *** [datetime.fromtimestamp]

    CPython on Linux with a 64-bit [time_t], local zone taken as UTC.
    - The seconds must fit [time_t]: [OverflowError] otherwise.
    - [localtime] breaks the seconds down; it fails, and CPython raises
      [OSError], when the year less 1900 does not fit a C [int]: [tm_min] is
      the first second of year -2147481748, [tm_max] the last second of year
      2147485547.
    - The year must lie in 1..9999: [ValueError] otherwise (above
      2147483647 the year wraps in its C [int] and is refused as well).
    - To detect a repeated hour the time one day earlier
      ([max_fold_seconds]) is broken down and checked the same way, so the
      first day of year 1 is refused with [ValueError] too. *)

Definition time_t_min : Z := - 2 ^ 63.
Definition time_t_max : Z := 2 ^ 63 - 1.
Definition tm_min : Z := -67768040609740800.
Definition tm_max : Z := 67768036191676799.
Definition datetime_min : Z := -62135596800.
Definition datetime_max : Z := 253402300799.
Definition max_fold_seconds : Z := 86400.

Definition from_timeval (sec us : Z) : outcome datetime :=
  if (sec <? time_t_min) || (time_t_max <? sec) then Raise OverflowError
  else if (sec <? tm_min) || (tm_max <? sec) then Raise OSError
  else if (sec <? datetime_min) || (datetime_max <? sec) then Raise ValueError
  else if sec - max_fold_seconds <? datetime_min then Raise ValueError
  else Ok (sec * 1000000 + us).

Definition signed (s : bool) (z : Z) : Z := if s then - z else z.

(** [modf]: integral part and fractional part of [(-1)^s * m * 2^e]. *)
Definition modf (s : bool) (m : positive) (e : Z) : Z * float :=
  if 0 <=? e then (signed s (Zpos m * 2 ^ e), S754_zero s)
  else
    let d := 2 ^ (- e) in
    (signed s (Zpos m / d),
     binary_normalize prec emax (signed s (Zpos m mod d)) e s).

(** Rounding of a float to the nearest integer, ties to even. *)
Definition round_half_even (f : float) : Z :=
  match f with
  | S754_finite s m e =>
      if 0 <=? e then signed s (Zpos m * 2 ^ e)
      else
        let d := 2 ^ (- e) in
        let q := Zpos m / d in
        let r := Zpos m mod d in
        signed s (if (d <? 2 * r) || ((d =? 2 * r) && Z.odd q)
                  then q + 1 else q)
  | _ => 0
  end.

(** The C cast of an integral double to [time_t].  CPython lets the double
    2^63 through its range check (the bound is compared after conversion to
    double); the cast is then out of range and x86-64 yields the least
    [time_t]. *)
Definition cast_time_t (intpart : Z) : Z :=
  if time_t_max <? intpart then time_t_min else intpart.

(** Seconds and microseconds of a float timestamp. *)
Definition timeval_of_float (f : float) : outcome (Z * Z) :=
  match f with
  | S754_nan => Raise ValueError
  | S754_infinity _ => Raise OverflowError
  | S754_zero _ => Ok (0, 0)
  | S754_finite s m e =>
      let '(intpart, floatpart) := modf s m e in
      let us := round_half_even (fmul floatpart (float_of_Z 1000000)) in
      let '(intpart, us) :=
        if 1000000 <=? us then (intpart + 1, us - 1000000)
        else if us <? 0 then (intpart - 1, us + 1000000)
        else (intpart, us) in
      if (intpart <? time_t_min) || (time_t_max + 1 <? intpart)
      then Raise OverflowError
      else Ok (cast_time_t intpart, us)
  end.

Definition fromtimestamp (v : json) : outcome datetime :=
  match v with
  | JNull => Raise TypeError
  | JStr _ => Raise TypeError
  | JBool b => from_timeval (if b then 1 else 0) 0
  | JInt z => from_timeval z 0
  | JFloat f =>
      match timeval_of_float f with
      | Ok (sec, us) => from_timeval sec us
      | Raise e => Raise e
      end
  end.

(** ** Field coercion: [safe_float_convert], [safe_bool_convert],
    [safe_timestamp_convert] *)

Section Coercion.

Variable P : platform.

Definition safe_float_convert (value : json) : M float :=
  if is_None value then ret fzero
  else try_except (lift (py_float P value)) (ret fzero).

Definition safe_bool_convert (value : json) : bool :=
  if negb (is_None value) then truthy value else false.

Definition safe_timestamp_convert (timestamp : json) : M datetime :=
  try_except
    (if truthy timestamp then lift (fromtimestamp timestamp) else now P)
    (now P).

End Coercion.

(** ** Extraction *)

(** The [states] entry of the payload: absent, [null], or an array of state
    vectors. *)
Inductive states_field : Type :=
| StatesAbsent
| StatesNull
| StatesArray (l : list (list json)).

Record response : Type := {
  status_code : Z;
  states : states_field
}.

(** [state[i]] *)
Definition item (state : list json) (i : nat) : M json :=
  match nth_error state i with
  | Some v => ret v
  | None => raise IndexError
  end.

Section Extraction.

Variable P : platform.

(** The dictionary built for one kept state vector, entries evaluated in
    the order they are written. *)
Definition flight_of_state (state : list json) (current_time : datetime)
  : M Flight :=
  s0 <- item state 0 ;;
  s1 <- item state 1 ;;
  s2 <- item state 2 ;;
  s3 <- item state 3 ;;
  tp <- safe_timestamp_convert P s3 ;;
  s4 <- item state 4 ;;
  lc <- safe_timestamp_convert P s4 ;;
  s5 <- item state 5 ;;
  lon <- safe_float_convert P s5 ;;
  s6 <- item state 6 ;;
  lat <- safe_float_convert P s6 ;;
  s7 <- item state 7 ;;
  baro <- safe_float_convert P s7 ;;
  s8 <- item state 8 ;;
  s9 <- item state 9 ;;
  vel <- safe_float_convert P s9 ;;
  s10 <- item state 10 ;;
  trk <- safe_float_convert P s10 ;;
  s11 <- item state 11 ;;
  vr <- safe_float_convert P s11 ;;
  s13 <- item state 13 ;;
  geo <- safe_float_convert P s13 ;;
  s14 <- item state 14 ;;
  s15 <- item state 15 ;;
  s16 <- item state 16 ;;
  ret {| icao24 := Some (py_str P s0);
         callsign := Some (if truthy s1 then strip (py_str P s1) else UNKNOWN);
         origin_country := Some (if truthy s2 then py_str P s2 else UNKNOWN);
         time_position := Some tp;
         last_contact := Some lc;
         longitude := Some lon;
         latitude := Some lat;
         baro_altitude := Some baro;
         on_ground := Some (safe_bool_convert s8);
         velocity := Some vel;
         true_track := Some trk;
         vertical_rate := Some vr;
         geo_altitude := Some geo;
         squawk := Some (if truthy s14 then py_str P s14 else UNKNOWN);
         spi := Some (safe_bool_convert s15);
         position_source :=
           Some (if truthy s16 then py_str P s16 else UNKNOWN);
         ingestion_time := Some current_time |}.

(** The loop [for state in ...], with the list [flights] built so far. *)
Fixpoint for_states (sts : list (list json)) (current_time : datetime)
  (flights : list Flight) : M (list Flight) :=
  match sts with
  | [] => ret flights
  | state :: rest =>
      s0 <- item state 0 ;;
      if negb (truthy s0) then for_states rest current_time flights
      else
        flight <- flight_of_state state current_time ;;
        for_states rest current_time (flights ++ [flight])
  end.

Definition extract (resp : response) : M (list Flight) :=
  if negb (status_code resp =? 200) then raise (ApiError (status_code resp))
  else
    current_time <- now P ;;
    match states resp with
    | StatesAbsent => for_states [] current_time []
    | StatesNull => raise TypeError
    | StatesArray l => for_states l current_time []
    end.

End Extraction.

(** ** Transformation *)

Definition column_eq_dec (a b : column) : {a = b} + {a <> b}.
Proof. decide equality. Defined.

Definition column_eqb (a b : column) : bool :=
  if column_eq_dec a b then true else false.

(** A row rewritten column by column: [fs] on the string columns, [fd] on the
    double columns, [ft] on the timestamp columns; the two boolean columns
    are never rewritten by [transform]. *)
Definition map_columns
  (fs : column -> option pystr -> option pystr)
  (fd : column -> option float -> option float)
  (ft : column -> option datetime -> option datetime)
  (r : Flight) : Flight :=
  {| icao24 := fs Icao24 (icao24 r);
     callsign := fs Callsign (callsign r);
     origin_country := fs Origin_country (origin_country r);
     time_position := ft Time_position (time_position r);
     last_contact := ft Last_contact (last_contact r);
     longitude := fd Longitude (longitude r);
     latitude := fd Latitude (latitude r);
     baro_altitude := fd Baro_altitude (baro_altitude r);
     on_ground := on_ground r;
     velocity := fd Velocity (velocity r);
     true_track := fd True_track (true_track r);
     vertical_rate := fd Vertical_rate (vertical_rate r);
     geo_altitude := fd Geo_altitude (geo_altitude r);
     squawk := fs Squawk (squawk r);
     spi := spi r;
     position_source := fs Position_source (position_source r);
     ingestion_time := ft Ingestion_time (ingestion_time r) |}.

Definition keep {A} (_ : column) (o : option A) : option A := o.

(** [coalesce(col, d)] *)
Definition coalesce {A} (o : option A) (d : A) : option A :=
  match o with
  | Some a => Some a
  | None => Some d
  end.

(** The replacement [na.fill] makes in a double column: nulls and NaNs. *)
Definition fill_double (d : float) (o : option float) : option float :=
  match o with
  | Some f => if is_nan f then Some d else Some f
  | None => Some d
  end.

Fixpoint lookup {A} (c : column) (d : list (column * A)) : option A :=
  match d with
  | [] => None
  | (c', v) :: d' => if column_eqb c c' then Some v else lookup c d'
  end.

(** [df.na.fill(d)] for a dictionary of string replacements. *)
Definition na_fill_strings (d : list (column * pystr)) (df : DataFrame)
  : DataFrame :=
  map (map_columns
         (fun c o => match lookup c d with
                     | Some v => coalesce o v
                     | None => o
                     end)
         keep keep) df.

(** [df.na.fill({col_name: v})] for one double column. *)
Definition na_fill_double (col_name : column) (v : float) (df : DataFrame)
  : DataFrame :=
  map (map_columns keep
         (fun c o => if column_eqb c col_name then fill_double v o else o)
         keep) df.

(** [df.withColumn(c, coalesce(col(c), current_timestamp()))] *)
Definition withColumn_coalesce (c : column) (current_timestamp : datetime)
  (df : DataFrame) : DataFrame :=
  map (map_columns keep keep
         (fun c' o => if column_eqb c' c then coalesce o current_timestamp
                      else o)) df.

Definition is_double (f : StructField) : bool :=
  match dataType f with DoubleType => true | _ => false end.

Definition numeric_columns : list column := map name (filter is_double schema).

(** [spark.createDataFrame(data, schema)]: a [None] in a non-nullable column
    is refused with [ValueError]. *)
Definition verify_row (r : Flight) : bool :=
  forallb (fun f => nullable f || isNotNull (name f) r) schema.

Definition createDataFrame (data : list Flight) : outcome DataFrame :=
  if forallb verify_row data then Ok data else Raise ValueError.

(** Step 1: the string defaults. *)
Definition fill_strings (df : DataFrame) : DataFrame :=
  na_fill_strings
    [ (Callsign, UNKNOWN); (Origin_country, UNKNOWN);
      (Squawk, UNKNOWN); (Position_source, UNKNOWN) ] df.

(** Step 2: the loop over [numeric_columns]. *)
Definition fill_numeric (df : DataFrame) : DataFrame :=
  fold_left (fun transformed_df col_name =>
               na_fill_double col_name fzero transformed_df)
            numeric_columns df.

(** Step 3: the timestamp backfill. *)
Definition backfill_timestamps (current_timestamp : datetime)
  (df : DataFrame) : DataFrame :=
  withColumn_coalesce Last_contact current_timestamp
    (withColumn_coalesce Time_position current_timestamp df).

(** Step 4: the validity filter. *)
Definition valid (r : Flight) : bool :=
  isNotNull Icao24 r && isNotNull Time_position r && isNotNull Ingestion_time r.

Definition filter_valid (df : DataFrame) : DataFrame := filter valid df.

(** Steps 1 to 3 together. *)
Definition defaulting (current_timestamp : datetime) (df : DataFrame)
  : DataFrame :=
  backfill_timestamps current_timestamp (fill_numeric (fill_strings df)).

Section Transformation.

Variable P : platform.

(** [current_timestamp()] is one reading of the clock for the whole query. *)
Definition transform (data : list Flight) : M DataFrame :=
  df <- lift (createDataFrame data) ;;
  current_timestamp <- now P ;;
  ret (filter_valid (defaulting current_timestamp df)).

End Transformation.

(** ** Statistics *)

(** The engine's ordering of doubles: NaN equals NaN and is above every other
    value, the two zeros are equal. *)
Definition compare_double (x y : float) : comparison :=
  match x, y with
  | S754_nan, S754_nan => Eq
  | S754_nan, _ => Gt
  | _, S754_nan => Lt
  | _, _ =>
      match SFcompare x y with
      | Some c => c
      | None => Eq
      end
  end.

Definition double_ltb (x y : float) : bool :=
  match compare_double x y with Lt => true | _ => false end.

Definition double_leb (x y : float) : bool :=
  match compare_double x y with Gt => false | _ => true end.

Definition double_eqb (x y : float) : bool :=
  match compare_double x y with Eq => true | _ => false end.

(** [min(c)], [max(c)]: over the non-null values, [None] when there is none. *)
Definition agg_min (vs : list (option float)) : option float :=
  fold_left (fun acc v =>
               match v, acc with
               | None, _ => acc
               | Some x, None => Some x
               | Some x, Some m => if double_ltb x m then Some x else Some m
               end) vs None.

Definition agg_max (vs : list (option float)) : option float :=
  fold_left (fun acc v =>
               match v, acc with
               | None, _ => acc
               | Some x, None => Some x
               | Some x, Some m => if double_ltb m x then Some x else Some m
               end) vs None.

(** [count(c)]: the number of non-null values. *)
Definition agg_count (vs : list (option float)) : nat :=
  List.length (filter is_some vs).

(** The double sum of one partition, or of the partial sums that reach the
    final aggregation: a buffer that starts at 0.0 and takes the values in
    the order they come. *)
Definition partial_sum (xs : list float) : float := fold_left fadd xs fzero.

(** What the engine's sum of a column can be.  The rows lie in consecutive
    partitions (some may be empty); each partition is summed on its own, in
    row order; the partial sums are added in the order they arrive.  Double
    addition is not associative, so the result depends on the cut. *)
Definition partitioned_sum (xs : list float) (s : float) : Prop :=
  exists (partitions : list (list float)) (arrived : list float),
    List.concat partitions = xs
    /\ Permutation (map partial_sum partitions) arrived
    /\ s = partial_sum arrived.

(** Grouping keys: [-0.0] is grouped with [0.0], null is a group of its own. *)
Definition normalize_key (f : float) : float :=
  match f with
  | S754_zero _ => fzero
  | _ => f
  end.

Definition key_eqb (a b : option float) : bool :=
  match a, b with
  | None, None => true
  | Some x, Some y => double_eqb x y
  | _, _ => false
  end.

Fixpoint bump (k : option float) (groups : list (option float * nat))
  : list (option float * nat) :=
  match groups with
  | [] => [(k, 1%nat)]
  | (k', n) :: rest =>
      if key_eqb k k' then (k', S n) :: rest else (k', n) :: bump k rest
  end.

(** [df.groupBy(c).count()] *)
Definition groupBy_count (vs : list (option float))
  : list (option float * nat) :=
  fold_left (fun groups v => bump (option_map normalize_key v) groups) vs [].

(** What the code leaves to the engine.
    - The sum behind [mean(col(c))]: some partitioned sum of the column.
    - The sort [orderBy(col('count').desc())]: some arrangement of the rows
      with the counts descending; the order among equal counts is the
      engine's. *)
Record engine : Type := {
  sum_doubles : list float -> float;
  sum_partitioned : forall xs, partitioned_sum xs (sum_doubles xs);
  orderBy_count_desc : list (option float * nat) -> list (option float * nat);
  orderBy_perm : forall l, Permutation l (orderBy_count_desc l);
  orderBy_sorted :
    forall l, StronglySorted (fun a b => (snd b <= snd a)%nat)
                             (orderBy_count_desc l)
}.

Section Statistics.

Variable E : engine.

(** The sum buffer of [mean(c)]: a null adds 0.0. *)
Definition agg_sum (vs : list (option float)) : float :=
  sum_doubles E (map (fun v => match v with Some x => x | None => fzero end)
                     vs).

(** [mean(c)]: the sum divided by the count of the non-null values, [None]
    when that count is 0. *)
Definition agg_mean (vs : list (option float)) : option float :=
  match agg_count vs with
  | O => None
  | n => Some (fdiv (agg_sum vs) (float_of_Z (Z.of_nat n)))
  end.

(** [mode_result[column] if mode_result else None] *)
Definition agg_mode (vs : list (option float)) : option float :=
  match hd_error (orderBy_count_desc E (groupBy_count vs)) with
  | Some mode_result => fst mode_result
  | None => None
  end.

Definition describe (vs : list (option float)) : descriptor :=
  {| d_mean := agg_mean vs;
     d_min := agg_min vs;
     d_max := agg_max vs;
     d_count := agg_count vs;
     d_mode := agg_mode vs |}.

Definition calculate_statistics (df : DataFrame)
  : list (column * descriptor) :=
  fold_left (fun statistics f =>
               if is_double f
               then statistics
                      ++ [(name f, describe (map (get_double (name f)) df))]
               else statistics)
            schema [].

End Statistics.

(** ** The pipeline *)

Section Pipeline.

Variable P : platform.
Variable E : engine.

Definition call {A} (s : stage) (c : M A) : M A := emit (Call s) ;;; c.

(** [self.load(df)] *)
Definition load (df : DataFrame) : M unit :=
  match sink P df with
  | None => ret tt
  | Some e => raise e
  end.

Fixpoint print_statistics (statistics : list (column * descriptor)) : M unit :=
  match statistics with
  | [] => ret tt
  | (c, stats) :: rest =>
      emit (Print (MsgStatisticsFor c)) ;;;
      emit (Print (MsgMean (d_mean stats))) ;;;
      emit (Print (MsgMin (d_min stats))) ;;;
      emit (Print (MsgMax (d_max stats))) ;;;
      emit (Print (MsgCount (d_count stats))) ;;;
      emit (Print (MsgMode (d_mode stats))) ;;;
      print_statistics rest
  end.

Definition is_empty {A} (l : list A) : bool :=
  match l with [] => true | _ => false end.

(** The body of the [try] statement. *)
Definition pipeline_steps (resp : response) : M unit :=
  emit (Print MsgStarting) ;;;
  raw_data <- call Extract (extract P resp) ;;
  if is_empty raw_data then emit (Print MsgNoValidData)
  else
    transformed_data <- call Transform (transform P raw_data) ;;
    statistics <-
      call Statistics (ret (calculate_statistics E transformed_data)) ;;
    print_statistics statistics ;;;
    let count := List.length transformed_data in
    emit (Print (MsgNumberOfRecords count)) ;;;
    if (0 <? count)%nat
    then emit (Print MsgLoading) ;;;
         call Load (load transformed_data) ;;;
         emit (Print MsgCompleted)
    else emit (Print MsgNoValidRecords).

Definition run_pipeline (resp : response) : M unit :=
  try_finally
    (try_reraise (pipeline_steps resp) (fun e => emit (Print (MsgError e))))
    (call SparkStop (ret tt)).

End Pipeline.

(** ** Sample data used by the examples below *)

(** A platform whose [float(s)] accepts no string, whose clock starts at
    2023-11-14 22:13:20 UTC and advances by one microsecond per reading, and
    whose store accepts every write. *)
Definition sample_platform : platform :=
  {| float_of_str := fun _ => None;
     str_of_float := fun _ => py "float";
     wall := fun n => 1700000000000000 + Z.of_nat n;
     sink := fun _ => None |}.

Definition f10 : float := float_of_Z 10.
Definition f20 : float := float_of_Z 20.

(** The largest finite double. *)
Definition fmax : float := S754_finite false 9007199254740991 971.

(** A well-formed state vector. *)
Definition sample_state : list json :=
  [ JStr (py "3c6444"); JStr (py "DLH9LF  "); JStr (py "Germany");
    JInt 1699999990; JInt 1699999995; JFloat f10; JFloat f20;
    JFloat (float_of_Z 11000); JBool false; JFloat (float_of_Z 230);
    JFloat (float_of_Z 90); JInt 0; JNull; JFloat (float_of_Z 11200);
    JStr (py "1000"); JBool false; JInt 0 ].

(** The same vector with another value at position 12. *)
Definition sample_state_sensors : list json :=
  [ JStr (py "3c6444"); JStr (py "DLH9LF  "); JStr (py "Germany");
    JInt 1699999990; JInt 1699999995; JFloat f10; JFloat f20;
    JFloat (float_of_Z 11000); JBool false; JFloat (float_of_Z 230);
    JFloat (float_of_Z 90); JInt 0; JInt 7; JFloat (float_of_Z 11200);
    JStr (py "1000"); JBool false; JInt 0 ].

(** A vector whose identifier is the number zero. *)
Definition zero_id_state : list json :=
  [ JInt 0; JStr (py "DLH9LF"); JStr (py "Germany");
    JInt 1699999990; JInt 1699999995; JFloat f10; JFloat f20;
    JNull; JBool false; JNull; JNull; JNull; JNull; JNull;
    JNull; JBool false; JInt 0 ].

(** A vector without identifier. *)
Definition null_id_state : list json :=
  [ JNull; JStr (py "AB123"); JStr (py "Germany");
    JInt 1699999990; JInt 1699999995; JFloat f10; JFloat f20;
    JNull; JBool false; JNull; JNull; JNull; JNull; JNull;
    JNull; JBool false; JInt 0 ].

(** A vector whose longitude is the integer [10^400]. *)
Definition huge_longitude_state : list json :=
  [ JStr (py "3c6444"); JStr (py "DLH9LF"); JStr (py "Germany");
    JInt 1699999990; JInt 1699999995; JInt (10 ^ 400); JFloat f20;
    JNull; JBool false; JNull; JNull; JNull; JNull; JNull;
    JNull; JBool false; JInt 0 ].

(** A vector without position time. *)
Definition no_time_state : list json :=
  [ JStr (py "3c6444"); JStr (py "DLH9LF"); JStr (py "Germany");
    JNull; JInt 1699999995; JFloat f10; JFloat f20;
    JNull; JBool false; JNull; JNull; JNull; JNull; JNull;
    JNull; JBool false; JInt 0 ].

Definition ok_response (l : list (list json)) : response :=
  {| status_code := 200; states := StatesArray l |}.

(** A record as [extract] builds them, with the given identifier, position
    time, longitude and ingestion time. *)
Definition sample_flight (id : option pystr) (tp : option datetime)
  (lon : option float) (ing : option datetime) : Flight :=
  {| icao24 := id;
     callsign := Some (py "DLH9LF");
     origin_country := None;
     time_position := tp;
     last_contact := None;
     longitude := lon;
     latitude := Some f20;
     baro_altitude := None;
     on_ground := Some false;
     velocity := Some S754_nan;
     true_track := Some fzero;
     vertical_rate := Some fzero;
     geo_altitude := Some fzero;
     squawk := None;
     spi := None;
     position_source := Some (py "0");
     ingestion_time := ing |}.

(** * Properties *)

(** ** Running the monad *)

Lemma bind_ok {A B} (c : M A) (k : A -> M B) w a w' :
  c w = (Ok a, w') -> bind c k w = k a w'.
Proof. intros H. unfold bind. now rewrite H. Qed.

Lemma bind_raise {A B} (c : M A) (k : A -> M B) w e w' :
  c w = (Raise e, w') -> bind c k w = (Raise e, w').
Proof. intros H. unfold bind. now rewrite H. Qed.

Lemma bind_inv {A B} (c : M A) (k : A -> M B) w b w' :
  bind c k w = (Ok b, w') ->
  exists a w1, c w = (Ok a, w1) /\ k a w1 = (Ok b, w').
Proof.
  unfold bind. destruct (c w) as [[a|e] w1]; intros H.
  - exists a, w1. now split.
  - discriminate.
Qed.

Lemma bind_cong {A B} (c c' : M A) (k k' : A -> M B) w :
  c w = c' w ->
  (forall a w1, k a w1 = k' a w1) ->
  bind c k w = bind c' k' w.
Proof.
  intros Hc Hk. unfold bind. rewrite Hc.
  destruct (c' w) as [[a|e] w1]; [apply Hk|reflexivity].
Qed.

Lemma item_inv state i v w w' :
  item state i w = (Ok v, w') -> nth_error state i = Some v /\ w' = w.
Proof.
  unfold item. destruct (nth_error state i); cbn; intros H.
  - now inversion H.
  - discriminate.
Qed.

Lemma item_some state i v w :
  nth_error state i = Some v -> item state i w = (Ok v, w).
Proof. intros H. unfold item. now rewrite H. Qed.

(** ** Truthiness and [strip] *)

(** The falsy JSON scalars. *)
Definition falsy (v : json) : Prop :=
  v = JNull \/ v = JBool false \/ v = JInt 0
  \/ (exists s, v = JFloat (S754_zero s)) \/ v = JStr [].

Lemma truthy_false_iff v : truthy v = false <-> falsy v.
Proof.
  unfold falsy. split.
  - destruct v as [|[]|z|f|s]; cbn; intros H; try discriminate; auto.
    + right. right. left. f_equal.
      apply negb_false_iff in H. now apply Z.eqb_eq in H.
    + destruct f; try discriminate. right. right. right. left. now exists s.
    + destruct s; try discriminate. now repeat right.
  - intros [->|[->|[->|[[s ->]| ->]]]]; reflexivity.
Qed.

Lemma truthy_true_iff v : truthy v = true <-> ~ falsy v.
Proof.
  rewrite <- truthy_false_iff. destruct (truthy v); split; intros; congruence.
Qed.

Lemma lstrip_spec s :
  exists pre, s = pre ++ lstrip s /\ forallb is_space pre = true
              /\ (match lstrip s with
                  | c :: _ => is_space c = false
                  | [] => True
                  end).
Proof.
  induction s as [|c s IH]; cbn.
  - exists []. now repeat split.
  - destruct (is_space c) eqn:Hc.
    + destruct IH as (pre & Hs & Hpre & Hhd).
      exists (c :: pre). cbn. rewrite Hc, Hpre. repeat split; trivial.
      now rewrite <- Hs.
    + exists []. now repeat split.
Qed.

(** What [strip] returns: the string without a run of whitespace at each
    end, starting and ending with a character that is not whitespace. *)
Lemma strip_spec s :
  exists pre post,
    s = pre ++ strip s ++ post
    /\ forallb is_space pre = true /\ forallb is_space post = true
    /\ (forall c t, strip s = c :: t -> is_space c = false)
    /\ (forall c t, strip s = t ++ [c] -> is_space c = false).
Proof.
  unfold strip, rstrip.
  destruct (lstrip_spec s) as (pre & Hs & Hpre & Hhd).
  destruct (lstrip_spec (rev (lstrip s))) as (tsop & Hr & Htsop & Hlast).
  set (u := lstrip s) in *. set (t := lstrip (rev u)) in *.
  assert (Hu : u = rev t ++ rev tsop).
  { rewrite <- rev_app_distr, <- Hr. now rewrite rev_involutive. }
  exists pre, (rev tsop). repeat split.
  - now rewrite <- Hu.
  - exact Hpre.
  - rewrite forallb_forall in *. intros x Hx. apply Htsop.
    now apply in_rev.
  - intros c t' Ht'.
    destruct t as [|x t0].
    + discriminate.
    + (* the first character of [u] is the first character of [rev t] *)
      destruct u as [|y u0].
      * destruct (rev (x :: t0)) eqn:E; [|discriminate].
        apply (f_equal (@rev N)) in E. rewrite rev_involutive in E.
        discriminate.
      * rewrite Ht' in Hu. cbn in Hu. inversion Hu; subst. exact Hhd.
  - intros c t' Ht'.
    apply (f_equal (@rev N)) in Ht'. rewrite rev_involutive in Ht'.
    rewrite rev_app_distr in Ht'. cbn in Ht'. rewrite Ht' in Hlast.
    exact Hlast.
Qed.

(** ** Field coercion *)

Section CoercionFacts.

Variable P : platform.

Lemma safe_float_convert_None w :
  safe_float_convert P JNull w = (Ok fzero, w).
Proof. reflexivity. Qed.

(** [safe_float_convert] returns what [float] returns, [0.0] when [float]
    raises [ValueError] or [TypeError], and lets any other error through; it
    never touches the clock or the log. *)
Lemma safe_float_convert_run value w :
  safe_float_convert P value w =
  (match value with
   | JNull => Ok fzero
   | _ =>
       match py_float P value with
       | Ok f => Ok f
       | Raise e => if value_or_type_error e then Ok fzero else Raise e
       end
   end, w).
Proof.
  destruct value; cbn; try reflexivity;
    unfold safe_float_convert, try_except, lift; cbn.
  - destruct (float_of_Z z); reflexivity.
  - destruct (float_of_str P s); reflexivity.
Qed.

Lemma safe_float_convert_pure value w r w' :
  safe_float_convert P value w = (r, w') ->
  w' = w /\ forall w0, safe_float_convert P value w0 = (r, w0).
Proof.
  rewrite safe_float_convert_run. intros H. inversion H; subst. split; trivial.
  intros w0. now rewrite safe_float_convert_run.
Qed.

(** [safe_bool_convert]: [False] for [None], the truthiness otherwise. *)
Lemma safe_bool_convert_spec value :
  safe_bool_convert value = if is_None value then false else truthy value.
Proof. now destruct value. Qed.

(** [safe_timestamp_convert]: a reading of the clock for a falsy value and
    when [fromtimestamp] raises [ValueError] or [TypeError], the converted
    value when there is one, and any other error let through. *)
Lemma safe_timestamp_convert_run timestamp w :
  safe_timestamp_convert P timestamp w =
  if truthy timestamp
  then match fromtimestamp timestamp with
       | Ok d => (Ok d, w)
       | Raise e => if value_or_type_error e then now P w else (Raise e, w)
       end
  else now P w.
Proof.
  unfold safe_timestamp_convert, try_except.
  destruct (truthy timestamp).
  - unfold lift. destruct (fromtimestamp timestamp); reflexivity.
  - reflexivity.
Qed.

End CoercionFacts.

(** ** Errors that escape the coercions *)

Lemma float_of_huge_int : float_of_Z (10 ^ 400) = S754_infinity false.
Proof. vm_compute. reflexivity. Qed.

Lemma safe_float_convert_huge_int (P : platform) (w : world) :
  safe_float_convert P (JInt (10 ^ 400)) w = (Raise OverflowError, w).
Proof.
  rewrite safe_float_convert_run. unfold py_float.
  now rewrite float_of_huge_int.
Qed.

(** C3. At the integer [10^400] [safe_float_convert] returns neither [0.0]
    nor a parsed value: the [OverflowError] of [float] is not among the
    errors it handles and escapes; in the same way [safe_timestamp_convert]
    lets the [OverflowError] of [fromtimestamp] escape at [10^20]. *)
Theorem coercions_let_overflow_escape :
  forall (P : platform) (w : world),
    safe_float_convert P (JInt (10 ^ 400)) w = (Raise OverflowError, w)
    /\ safe_timestamp_convert P (JInt (10 ^ 20)) w = (Raise OverflowError, w).
Proof.
  intros P w. split.
  - apply safe_float_convert_huge_int.
  - rewrite safe_timestamp_convert_run. reflexivity.
Qed.

(** C5. With status 200 and a payload of one complete state vector whose
    longitude is the integer [10^400], [extract] fails with the
    [OverflowError] that escapes [safe_float_convert]. *)
Theorem extract_fails_on_huge_number :
  forall (P : platform) (w : world),
    extract P (ok_response [huge_longitude_state]) w
    = (Raise OverflowError, mkWorld (S (ticks w)) (log w)).
Proof.
  intros P [t l]. unfold extract, ok_response, huge_longitude_state.
  cbn [status_code states Z.eqb Pos.eqb negb].
  unfold bind at 1. cbn [now ticks log].
  cbn [for_states]. rewrite (bind_ok _ _ _ (JStr (py "3c6444")) _ eq_refl).
  cbn [truthy py map list_ascii_of_string negb].
  apply bind_raise. unfold flight_of_state.
  do 4 (erewrite bind_ok by reflexivity).
  erewrite bind_ok by (rewrite safe_timestamp_convert_run; reflexivity).
  erewrite bind_ok by reflexivity.
  erewrite bind_ok by (rewrite safe_timestamp_convert_run; reflexivity).
  erewrite bind_ok by reflexivity.
  apply bind_raise.
  apply safe_float_convert_huge_int.
Qed.

(** ** Extraction *)

Ltac bind_step H :=
  let a := fresh "a" in
  let w1 := fresh "w" in
  let Hc := fresh "Hc" in
  apply bind_inv in H; destruct H as (a & w1 & Hc & H).

Ltac item_step H :=
  let a := fresh "s" in
  let w1 := fresh "w" in
  let Hc := fresh "Hi" in
  apply bind_inv in H; destruct H as (a & w1 & Hc & H);
  apply item_inv in Hc; destruct Hc as [Hc ->].

Ltac float_step H :=
  let a := fresh "x" in
  let w1 := fresh "w" in
  let Hc := fresh "Hf" in
  apply bind_inv in H; destruct H as (a & w1 & Hc & H);
  apply safe_float_convert_pure in Hc; destruct Hc as [-> Hc].

Section ExtractionFacts.

Variable P : platform.

(** What a successful [flight_of_state] has read and built. *)
Lemma flight_of_state_inv state current_time w fl w' :
  flight_of_state P state current_time w = (Ok fl, w') ->
  exists s0 s1 s2 s3 s4 s5 s6 s7 s8 s9 s10 s11 s13 s14 s15 s16
         tp lc lon lat baro vel trk vr geo w1,
    (nth_error state 0 = Some s0 /\ nth_error state 1 = Some s1
     /\ nth_error state 2 = Some s2 /\ nth_error state 3 = Some s3
     /\ nth_error state 4 = Some s4 /\ nth_error state 5 = Some s5
     /\ nth_error state 6 = Some s6 /\ nth_error state 7 = Some s7
     /\ nth_error state 8 = Some s8 /\ nth_error state 9 = Some s9
     /\ nth_error state 10 = Some s10 /\ nth_error state 11 = Some s11
     /\ nth_error state 13 = Some s13 /\ nth_error state 14 = Some s14
     /\ nth_error state 15 = Some s15 /\ nth_error state 16 = Some s16)
    /\ (safe_timestamp_convert P s3 w = (Ok tp, w1)
        /\ safe_timestamp_convert P s4 w1 = (Ok lc, w'))
    /\ ((forall w0, safe_float_convert P s5 w0 = (Ok lon, w0))
        /\ (forall w0, safe_float_convert P s6 w0 = (Ok lat, w0))
        /\ (forall w0, safe_float_convert P s7 w0 = (Ok baro, w0))
        /\ (forall w0, safe_float_convert P s9 w0 = (Ok vel, w0))
        /\ (forall w0, safe_float_convert P s10 w0 = (Ok trk, w0))
        /\ (forall w0, safe_float_convert P s11 w0 = (Ok vr, w0))
        /\ (forall w0, safe_float_convert P s13 w0 = (Ok geo, w0)))
    /\ fl = {| icao24 := Some (py_str P s0);
               callsign :=
                 Some (if truthy s1 then strip (py_str P s1) else UNKNOWN);
               origin_country :=
                 Some (if truthy s2 then py_str P s2 else UNKNOWN);
               time_position := Some tp;
               last_contact := Some lc;
               longitude := Some lon;
               latitude := Some lat;
               baro_altitude := Some baro;
               on_ground := Some (safe_bool_convert s8);
               velocity := Some vel;
               true_track := Some trk;
               vertical_rate := Some vr;
               geo_altitude := Some geo;
               squawk := Some (if truthy s14 then py_str P s14 else UNKNOWN);
               spi := Some (safe_bool_convert s15);
               position_source :=
                 Some (if truthy s16 then py_str P s16 else UNKNOWN);
               ingestion_time := Some current_time |}.
Proof.
  unfold flight_of_state. intros H.
  do 4 item_step H. bind_step H.
  item_step H. bind_step H.
  do 3 (item_step H; float_step H).
  item_step H.
  do 4 (item_step H; float_step H).
  do 3 item_step H.
  unfold ret in H. inversion H; subst; clear H.
  repeat eexists; eauto.
Qed.

(** The vectors the loop keeps: those whose position 0 is truthy. *)
Definition identifier_truthy (state : list json) : bool :=
  match nth_error state 0 with
  | Some v => truthy v
  | None => false
  end.

(** [fl] is the record built for [state] in a batch stamped
    [current_time]. *)
Definition built_from (current_time : datetime) (state : list json)
  (fl : Flight) : Prop :=
  (exists w w', flight_of_state P state current_time w = (Ok fl, w'))
  /\ icao24 fl = option_map (py_str P) (nth_error state 0)
  /\ ingestion_time fl = Some current_time.

Lemma for_states_inv sts current_time : forall flights w out w',
  for_states P sts current_time flights w = (Ok out, w') ->
  exists built,
    out = flights ++ built
    /\ Forall2 (built_from current_time) (filter identifier_truthy sts) built.
Proof.
  induction sts as [|state rest IH]; intros flights w out w' H.
  - cbn in H. inversion H; subst. exists []. split.
    + now rewrite app_nil_r.
    + constructor.
  - cbn [for_states] in H. item_step H.
    cbn [filter]. unfold identifier_truthy at 1. rewrite Hi.
    destruct (truthy s) eqn:Hs; cbn [negb] in H.
    + bind_step H. apply IH in H. destruct H as (built & -> & HF).
      exists (a :: built). split.
      * now rewrite <- app_assoc.
      * constructor; trivial. split; [now exists w, w0|].
        apply flight_of_state_inv in Hc.
        destruct Hc as (s0 & s1 & s2 & s3 & s4 & s5 & s6 & s7 & s8 & s9
                        & s10 & s11 & s13 & s14 & s15 & s16 & tp & lc & lon
                        & lat & baro & vel & trk & vr & geo & w1 & Hn & _
                        & _ & ->).
        destruct Hn as (Hn & _). rewrite Hn. now split.
    + now apply IH in H.
Qed.

Lemma extract_inv resp w flights w' :
  extract P resp w = (Ok flights, w') ->
  status_code resp = 200
  /\ exists sts,
       (states resp = StatesArray sts
        \/ (states resp = StatesAbsent /\ sts = []))
       /\ Forall2 (built_from (wall P (ticks w)))
                  (filter identifier_truthy sts) flights.
Proof.
  unfold extract. destruct (status_code resp =? 200) eqn:Hst; cbn [negb].
  2: { discriminate. }
  intros H. split; [now apply Z.eqb_eq|].
  bind_step H. unfold now in Hc. inversion Hc; subst; clear Hc.
  destruct (states resp) as [| |sts].
  - exists []. split; [now right|]. cbn in H. inversion H; subst. constructor.
  - discriminate.
  - exists sts. split; [now left|].
    apply for_states_inv in H. destruct H as (built & -> & HF). exact HF.
Qed.

(** A status other than 200 makes [extract] raise, before anything else. *)
Lemma extract_bad_status resp w :
  status_code resp <> 200 ->
  extract P resp w = (Raise (ApiError (status_code resp)), w).
Proof.
  intros H. unfold extract. apply Z.eqb_neq in H. now rewrite H.
Qed.

(** A [null] in place of the array of states makes [extract] raise. *)
Lemma extract_null_states w :
  extract P {| status_code := 200; states := StatesNull |} w
  = (Raise TypeError, mkWorld (S (ticks w)) (log w)).
Proof. reflexivity. Qed.

End ExtractionFacts.

(** *** When extraction succeeds *)

Definition is_inf (f : float) : bool :=
  match f with S754_infinity _ => true | _ => false end.

(** The values [float] converts or refuses with a handled error. *)
Definition float_in_range (v : json) : bool :=
  match v with
  | JInt z => negb (is_inf (float_of_Z z))
  | _ => true
  end.

(** The values [fromtimestamp] is not called on, converts, or refuses with a
    handled error. *)
Definition timestamp_in_range (v : json) : bool :=
  negb (truthy v)
  || match fromtimestamp v with
     | Ok _ => true
     | Raise e => value_or_type_error e
     end.

Definition well_formed_state (state : list json) : Prop :=
  (17 <= List.length state)%nat
  /\ Forall (fun i => timestamp_in_range (nth i state JNull) = true)
            [3; 4]%nat
  /\ Forall (fun i => float_in_range (nth i state JNull) = true)
            [5; 6; 7; 9; 10; 11; 13]%nat.

Section ExtractionTotal.

Variable P : platform.

Lemma safe_float_convert_total v :
  float_in_range v = true ->
  exists f, forall w, safe_float_convert P v w = (Ok f, w).
Proof.
  intros H. destruct v as [|b|z|f|s].
  - exists fzero. intros w. reflexivity.
  - exists (if b then fone else fzero). intros w.
    now rewrite safe_float_convert_run.
  - cbn in H. exists (float_of_Z z). intros w.
    rewrite safe_float_convert_run. unfold py_float.
    destruct (float_of_Z z); try reflexivity. discriminate.
  - exists f. intros w. now rewrite safe_float_convert_run.
  - destruct (float_of_str P s) as [f|] eqn:E.
    + exists f. intros w. rewrite safe_float_convert_run. cbn. now rewrite E.
    + exists fzero. intros w. rewrite safe_float_convert_run. cbn.
      now rewrite E.
Qed.

Lemma safe_timestamp_convert_total v w :
  timestamp_in_range v = true ->
  exists d w', safe_timestamp_convert P v w = (Ok d, w').
Proof.
  unfold timestamp_in_range. intros H.
  rewrite safe_timestamp_convert_run.
  destruct (truthy v); cbn [negb orb] in H.
  - destruct (fromtimestamp v) as [d|e].
    + eauto.
    + rewrite H. unfold now. eauto.
  - unfold now. eauto.
Qed.

Lemma flight_of_state_total state current_time w :
  well_formed_state state ->
  exists fl w', flight_of_state P state current_time w = (Ok fl, w').
Proof.
  intros (Hlen & Hts & Hfl).
  do 17 (destruct state as [|? state]; [cbn in Hlen; lia|]).
  repeat match goal with
         | H : Forall _ (_ :: _) |- _ => inversion H; subst; clear H
         | H : Forall _ [] |- _ => clear H
         end.
  cbn [nth] in *.
  repeat match goal with
         | H : float_in_range _ = true |- _ =>
             apply safe_float_convert_total in H; destruct H as (? & H)
         end.
  unfold flight_of_state.
  do 4 (erewrite bind_ok by reflexivity).
  match goal with
  | H : timestamp_in_range j2 = true |- _ =>
      destruct (safe_timestamp_convert_total _ w H) as (d1 & w1 & E1)
  end.
  erewrite bind_ok by exact E1.
  erewrite bind_ok by reflexivity.
  match goal with
  | H : timestamp_in_range j3 = true |- _ =>
      destruct (safe_timestamp_convert_total _ w1 H) as (d2 & w2 & E2)
  end.
  erewrite bind_ok by exact E2.
  repeat first [ erewrite bind_ok by reflexivity
               | erewrite bind_ok by match goal with
                                     | H : forall w, _ = _ |- _ => apply H
                                     end ].
  unfold ret. eauto.
Qed.

Lemma for_states_total sts current_time :
  Forall well_formed_state sts ->
  forall flights w,
  exists out w', for_states P sts current_time flights w = (Ok out, w').
Proof.
  induction 1 as [|state rest Hwf _ IH]; intros flights w.
  - cbn. unfold ret. eauto.
  - cbn [for_states].
    assert (Hs : exists s0, nth_error state 0 = Some s0).
    { destruct Hwf as (Hlen & _). destruct state; cbn in *; [lia|eauto]. }
    destruct Hs as (s0 & Hs0).
    erewrite bind_ok by (apply item_some; exact Hs0).
    destruct (truthy s0); cbn [negb].
    + destruct (flight_of_state_total state current_time w Hwf)
        as (fl & w1 & E).
      erewrite bind_ok by exact E. apply IH.
    + apply IH.
Qed.

(** With status 200, an array of states that is absent or holds well-formed
    vectors, [extract] returns a batch. *)
Lemma extract_total resp w :
  status_code resp = 200 ->
  states resp <> StatesNull ->
  (forall sts, states resp = StatesArray sts -> Forall well_formed_state sts) ->
  exists flights w', extract P resp w = (Ok flights, w').
Proof.
  intros Hst Hnull Hwf. unfold extract. rewrite Hst. cbn [Z.eqb Pos.eqb negb].
  unfold bind at 1. cbn [now].
  destruct (states resp) as [| |sts] eqn:E.
  - cbn. unfold ret. eauto.
  - congruence.
  - apply for_states_total. now apply Hwf.
Qed.

End ExtractionTotal.

(** *** Which vectors are kept *)

(** What a run returned, for the examples. *)
Definition returned {A} (r : outcome A * world) (default : A) : A :=
  match fst r with
  | Ok a => a
  | Raise _ => default
  end.

Lemma identifier_truthy_iff state :
  identifier_truthy state = true
  <-> exists v, nth_error state 0 = Some v /\ ~ falsy v.
Proof.
  unfold identifier_truthy. split.
  - destruct (nth_error state 0) as [v|]; [|discriminate].
    intros H. exists v. split; trivial. now apply truthy_true_iff.
  - intros (v & -> & H). now apply truthy_true_iff.
Qed.

Lemma for_states_reads_identifier P sts current_time :
  forall flights w out w',
    for_states P sts current_time flights w = (Ok out, w') ->
    Forall (fun state => nth_error state 0 <> None) sts.
Proof.
  induction sts as [|state rest IH]; intros flights w out w' H.
  - constructor.
  - cbn [for_states] in H. item_step H. constructor; [congruence|].
    destruct (negb (truthy s)).
    + now apply IH in H.
    + bind_step H. now apply IH in H.
Qed.

(** C2 (as stated, refuted). A complete state vector whose identifier is the
    number 0, neither null nor an empty string, is dropped. *)
Lemma extract_drops_zero_identifier :
  nth_error zero_id_state 0 = Some (JInt 0)
  /\ JInt 0 <> JNull /\ JInt 0 <> JStr []
  /\ fst (extract sample_platform (ok_response [zero_id_state]) world0)
     = Ok [].
Proof. repeat split; try discriminate. Qed.

(** C2 (amended). Whenever [extract] returns, its batch holds, in order,
    exactly one record for each state vector whose position 0 is truthy,
    built from that vector and stamped with the one clock reading taken at
    the start; the vectors whose position 0 is falsy (null, false, a zero
    number or the empty string) are the ones left out. *)
Theorem extract_keeps_truthy_identifiers :
  forall (P : platform) (resp : response) (w : world)
         (flights : list Flight) (w' : world),
    extract P resp w = (Ok flights, w') ->
    exists sts,
      (states resp = StatesArray sts
       \/ (states resp = StatesAbsent /\ sts = []))
      /\ Forall2 (built_from P (wall P (ticks w)))
                 (filter identifier_truthy sts) flights
      /\ (forall state,
            In state sts ->
            (identifier_truthy state = false
             <-> exists v, nth_error state 0 = Some v /\ falsy v)).
Proof.
  intros P resp w flights w' H.
  pose proof H as Hinv. apply extract_inv in Hinv.
  destruct Hinv as (Hst & sts & Hsts & HF).
  exists sts. repeat split; trivial.
  - (* every vector of a successful run has a position 0 *)
    intros Hid. unfold identifier_truthy in Hid.
    destruct (nth_error state 0) as [v|] eqn:E.
    + exists v. split; trivial. now apply truthy_false_iff.
    + exfalso. destruct Hsts as [Hsts|[_ ->]]; [|contradiction].
      unfold extract in H. rewrite Hst, Hsts in H.
      cbn [Z.eqb Pos.eqb negb] in H. bind_step H.
      apply for_states_reads_identifier in H.
      rewrite Forall_forall in H. now apply (H state).
  - intros (v & Hv & Hf). unfold identifier_truthy. rewrite Hv.
    now apply truthy_false_iff.
Qed.

Lemma extract_keeps_truthy_identifiers_witness :
  let resp := ok_response [sample_state; zero_id_state; null_id_state] in
  exists sts,
    (states resp = StatesArray sts
     \/ (states resp = StatesAbsent /\ sts = []))
    /\ Forall2 (built_from sample_platform (wall sample_platform 0))
               (filter identifier_truthy sts)
               (returned (extract sample_platform resp world0) [])
    /\ (forall state,
          In state sts ->
          (identifier_truthy state = false
           <-> exists v, nth_error state 0 = Some v /\ falsy v)).
Proof.
  intros resp.
  apply (extract_keeps_truthy_identifiers sample_platform resp world0
           (returned (extract sample_platform resp world0) [])
           (snd (extract sample_platform resp world0))).
  vm_compute. reflexivity.
Defined.

(** *** The string fields *)

(** The text stored for a string field: the default when the raw value is
    falsy, [kept] otherwise. *)
Definition defaulted (raw : json) (kept : pystr) (stored : option pystr)
  : Prop :=
  (falsy raw -> stored = Some UNKNOWN)
  /\ (~ falsy raw -> stored = Some kept).

Lemma defaulted_if raw kept :
  defaulted raw kept (Some (if truthy raw then kept else UNKNOWN)).
Proof.
  split; intros H.
  - apply truthy_false_iff in H. now rewrite H.
  - apply truthy_true_iff in H. now rewrite H.
Qed.

(** C4 (as stated, refuted). The sample vector's position source is the
    number 0, which is not null; the record holds "UNKNOWN" for it and not
    the text "0". *)
Lemma position_source_zero_becomes_unknown :
  nth_error sample_state 16 = Some (JInt 0)
  /\ JInt 0 <> JNull
  /\ py_str sample_platform (JInt 0) = py "0"
  /\ exists fl w',
       flight_of_state sample_platform sample_state 0 world0 = (Ok fl, w')
       /\ position_source fl = Some UNKNOWN
       /\ position_source fl <> Some (py "0").
Proof.
  repeat split; try discriminate.
  eexists. eexists. split.
  - vm_compute. reflexivity.
  - split; [reflexivity|discriminate].
Qed.

(** C4 (amended). In the record built for a state vector, callsign is
    "UNKNOWN" when the raw value at position 1 is falsy (null, false, a zero
    number or the empty string) and otherwise its text stripped of
    surrounding whitespace; origin_country, squawk and position_source are
    "UNKNOWN" when the raw value at positions 2, 14, 16 is falsy and otherwise
    its text. *)
Theorem flight_string_fields :
  forall (P : platform) (state : list json) (current_time : datetime)
         (w : world) (fl : Flight) (w' : world),
    flight_of_state P state current_time w = (Ok fl, w') ->
    exists s1 s2 s14 s16,
      (nth_error state 1 = Some s1 /\ nth_error state 2 = Some s2
       /\ nth_error state 14 = Some s14 /\ nth_error state 16 = Some s16)
      /\ defaulted s1 (strip (py_str P s1)) (callsign fl)
      /\ defaulted s2 (py_str P s2) (origin_country fl)
      /\ defaulted s14 (py_str P s14) (squawk fl)
      /\ defaulted s16 (py_str P s16) (position_source fl).
Proof.
  intros P state current_time w fl w' H.
  apply flight_of_state_inv in H.
  destruct H as (s0 & s1 & s2 & s3 & s4 & s5 & s6 & s7 & s8 & s9
                 & s10 & s11 & s13 & s14 & s15 & s16 & tp & lc & lon
                 & lat & baro & vel & trk & vr & geo & w1 & Hn & _ & _ & ->).
  exists s1, s2, s14, s16. cbn [callsign origin_country squawk position_source].
  repeat split; try tauto; try apply defaulted_if.
Qed.

Lemma flight_string_fields_witness :
  let fl := returned (flight_of_state sample_platform sample_state 0 world0)
                     (sample_flight None None None None) in
  exists s1 s2 s14 s16,
    (nth_error sample_state 1 = Some s1 /\ nth_error sample_state 2 = Some s2
     /\ nth_error sample_state 14 = Some s14
     /\ nth_error sample_state 16 = Some s16)
    /\ defaulted s1 (strip (py_str sample_platform s1)) (callsign fl)
    /\ defaulted s2 (py_str sample_platform s2) (origin_country fl)
    /\ defaulted s14 (py_str sample_platform s14) (squawk fl)
    /\ defaulted s16 (py_str sample_platform s16) (position_source fl).
Proof.
  intros fl.
  apply (flight_string_fields sample_platform sample_state 0 world0 fl
           (snd (flight_of_state sample_platform sample_state 0 world0))).
  vm_compute. reflexivity.
Defined.

(** The default is also a possible value: a callsign " UNKNOWN " and an
    origin country "UNKNOWN", neither of them falsy, are stored as "UNKNOWN"
    too, so a stored "UNKNOWN" does not tell that the raw value was
    missing. *)
Example unknown_is_also_a_value :
  let state :=
    [ JStr (py "3c6444"); JStr (py " UNKNOWN "); JStr (py "UNKNOWN");
      JInt 1699999990; JInt 1699999995; JFloat f10; JFloat f20;
      JNull; JBool false; JNull; JNull; JNull; JNull; JNull;
      JStr (py "1000"); JBool false; JInt 0 ] in
  ~ falsy (JStr (py " UNKNOWN ")) /\ ~ falsy (JStr (py "UNKNOWN"))
  /\ exists fl w',
       flight_of_state sample_platform state 0 world0 = (Ok fl, w')
       /\ callsign fl = Some UNKNOWN
       /\ origin_country fl = Some UNKNOWN.
Proof.
  cbv zeta. split; [|split].
  - now apply truthy_true_iff.
  - now apply truthy_true_iff.
  - eexists. eexists. split; [vm_compute; reflexivity|].
    split; reflexivity.
Qed.

(** *** Position 12 *)

(** Two state vectors that agree at every position but 12. *)
Definition agree_off_12 (state state' : list json) : Prop :=
  forall i, i <> 12%nat -> nth_error state i = nth_error state' i.

Lemma flight_of_state_off_12 P state state' current_time w :
  agree_off_12 state state' ->
  flight_of_state P state current_time w
  = flight_of_state P state' current_time w.
Proof.
  intros H. unfold flight_of_state, item.
  rewrite (H 0%nat), (H 1%nat), (H 2%nat), (H 3%nat), (H 4%nat), (H 5%nat),
    (H 6%nat), (H 7%nat), (H 8%nat), (H 9%nat), (H 10%nat), (H 11%nat),
    (H 13%nat), (H 14%nat), (H 15%nat), (H 16%nat) by discriminate.
  reflexivity.
Qed.

Lemma for_states_off_12 P sts sts' current_time :
  Forall2 agree_off_12 sts sts' ->
  forall flights w,
    for_states P sts current_time flights w
    = for_states P sts' current_time flights w.
Proof.
  induction 1 as [|state state' rest rest' Hag _ IH]; intros flights w.
  - reflexivity.
  - cbn [for_states]. apply bind_cong.
    + unfold item. now rewrite (Hag 0%nat) by discriminate.
    + intros s0 w1. destruct (negb (truthy s0)); [apply IH|].
      apply bind_cong; [now apply flight_of_state_off_12|].
      intros fl w2. apply IH.
Qed.

(** C10 (as stated, refuted). The same vector with the same ingestion
    timestamp gives two different records when the clock is read at two
    different moments: the missing position time is filled with that
    reading. *)
Lemma record_depends_on_clock :
  fst (flight_of_state sample_platform no_time_state 1700000000000000
         (mkWorld 0 []))
  <> fst (flight_of_state sample_platform no_time_state 1700000000000000
            (mkWorld 5 [])).
Proof. vm_compute. intros H. discriminate H. Qed.

(** C10 (amended). The record built for a state vector is determined by
    positions 0 to 11 and 13 to 16 of the vector, the ingestion timestamp and
    the clock readings that fill a missing timestamp: vectors that differ
    only at position 12 give the same record and the same batch, and
    geo_altitude is the conversion of position 13. *)
Theorem position_12_never_read :
  forall (P : platform),
    (forall state state' current_time w,
        agree_off_12 state state' ->
        flight_of_state P state current_time w
        = flight_of_state P state' current_time w)
    /\ (forall sts sts' w,
          Forall2 agree_off_12 sts sts' ->
          extract P (ok_response sts) w = extract P (ok_response sts') w)
    /\ (forall state current_time w fl w',
          flight_of_state P state current_time w = (Ok fl, w') ->
          exists s13 geo,
            nth_error state 13 = Some s13
            /\ (forall w0, safe_float_convert P s13 w0 = (Ok geo, w0))
            /\ geo_altitude fl = Some geo).
Proof.
  intros P. split; [|split].
  - intros. now apply flight_of_state_off_12.
  - intros sts sts' w H. unfold extract, ok_response.
    cbn [status_code states Z.eqb Pos.eqb negb]. unfold bind at 1 2.
    cbn [now]. now apply for_states_off_12.
  - intros state current_time w fl w' H.
    apply flight_of_state_inv in H.
    destruct H as (s0 & s1 & s2 & s3 & s4 & s5 & s6 & s7 & s8 & s9
                   & s10 & s11 & s13 & s14 & s15 & s16 & tp & lc & lon
                   & lat & baro & vel & trk & vr & geo & w1 & Hn & _ & Hf
                   & ->).
    exists s13, geo. cbn [geo_altitude]. repeat split; tauto.
Qed.

Lemma sample_states_agree_off_12 :
  agree_off_12 sample_state sample_state_sensors.
Proof.
  intros i Hi.
  do 17 (destruct i as [|i]; [first [reflexivity | now elim Hi]|]).
  reflexivity.
Qed.

Lemma position_12_never_read_witness :
  flight_of_state sample_platform sample_state 0 world0
  = flight_of_state sample_platform sample_state_sensors 0 world0
  /\ extract sample_platform (ok_response [sample_state]) world0
     = extract sample_platform (ok_response [sample_state_sensors]) world0
  /\ exists s13 geo,
       nth_error sample_state 13 = Some s13
       /\ (forall w0, safe_float_convert sample_platform s13 w0 = (Ok geo, w0))
       /\ geo_altitude
            (returned (flight_of_state sample_platform sample_state 0 world0)
                      (sample_flight None None None None))
          = Some geo.
Proof.
  destruct (position_12_never_read sample_platform) as (H1 & H2 & H3).
  split; [|split].
  - apply H1. exact sample_states_agree_off_12.
  - apply H2. constructor; [exact sample_states_agree_off_12|constructor].
  - apply (H3 sample_state 0 world0 _
              (snd (flight_of_state sample_platform sample_state 0 world0))).
    vm_compute. reflexivity.
Defined.

(** ** Transformation *)

Lemma verify_row_spec r : verify_row r = is_some (ingestion_time r).
Proof. unfold verify_row. cbn. now destruct (ingestion_time r). Qed.

Lemma createDataFrame_spec data :
  createDataFrame data
  = if forallb (fun r => is_some (ingestion_time r)) data
    then Ok data else Raise ValueError.
Proof.
  unfold createDataFrame.
  assert (E : forallb verify_row data
              = forallb (fun r => is_some (ingestion_time r)) data).
  { induction data as [|r data IH]; cbn [forallb]; [reflexivity|].
    now rewrite verify_row_spec, IH. }
  now rewrite E.
Qed.

(** The three defaulting steps rewrite each row on its own. *)
Definition defaulting_row (current_timestamp : datetime) (r : Flight)
  : Flight :=
  {| icao24 := icao24 r;
     callsign := coalesce (callsign r) UNKNOWN;
     origin_country := coalesce (origin_country r) UNKNOWN;
     time_position := coalesce (time_position r) current_timestamp;
     last_contact := coalesce (last_contact r) current_timestamp;
     longitude := fill_double fzero (longitude r);
     latitude := fill_double fzero (latitude r);
     baro_altitude := fill_double fzero (baro_altitude r);
     on_ground := on_ground r;
     velocity := fill_double fzero (velocity r);
     true_track := fill_double fzero (true_track r);
     vertical_rate := fill_double fzero (vertical_rate r);
     geo_altitude := fill_double fzero (geo_altitude r);
     squawk := coalesce (squawk r) UNKNOWN;
     spi := spi r;
     position_source := coalesce (position_source r) UNKNOWN;
     ingestion_time := ingestion_time r |}.

Lemma defaulting_rows current_timestamp df :
  defaulting current_timestamp df
  = map (defaulting_row current_timestamp) df.
Proof.
  unfold defaulting, backfill_timestamps, fill_numeric, fill_strings,
    withColumn_coalesce, na_fill_strings, na_fill_double.
  cbn [numeric_columns schema filter is_double dataType map name fold_left].
  rewrite !map_map. apply map_ext. intros r. reflexivity.
Qed.

Lemma coalesce_twice {A} (o : option A) d d' :
  coalesce (coalesce o d) d' = coalesce o d.
Proof. now destruct o. Qed.

Lemma fill_double_twice d o :
  is_nan d = false -> fill_double d (fill_double d o) = fill_double d o.
Proof.
  intros Hd. destruct o as [f|]; cbn.
  - destruct (is_nan f) eqn:E; cbn; now rewrite ?Hd, ?E.
  - now rewrite Hd.
Qed.

Lemma defaulting_row_twice ts1 ts2 r :
  defaulting_row ts2 (defaulting_row ts1 r) = defaulting_row ts1 r.
Proof.
  unfold defaulting_row. cbn.
  now rewrite !coalesce_twice, !fill_double_twice by reflexivity.
Qed.

Lemma fill_strings_twice df : fill_strings (fill_strings df) = fill_strings df.
Proof.
  unfold fill_strings, na_fill_strings. rewrite map_map. apply map_ext.
  intros r. unfold map_columns, keep. cbn.
  now rewrite !coalesce_twice.
Qed.

Lemma fill_numeric_rows df :
  fill_numeric df
  = map (map_columns keep
           (fun c o => if existsb (column_eqb c) numeric_columns
                       then fill_double fzero o else o)
           keep) df.
Proof.
  unfold fill_numeric, na_fill_double.
  cbn [numeric_columns schema filter is_double dataType map name fold_left].
  rewrite !map_map. apply map_ext. intros r. reflexivity.
Qed.

Lemma fill_numeric_twice df : fill_numeric (fill_numeric df) = fill_numeric df.
Proof.
  rewrite !fill_numeric_rows, map_map. apply map_ext. intros r.
  unfold map_columns, keep. cbn.
  now rewrite !fill_double_twice by reflexivity.
Qed.

Lemma backfill_timestamps_twice ts1 ts2 df :
  backfill_timestamps ts2 (backfill_timestamps ts1 df)
  = backfill_timestamps ts1 df.
Proof.
  unfold backfill_timestamps, withColumn_coalesce.
  rewrite !map_map. apply map_ext. intros r. unfold map_columns, keep. cbn.
  now rewrite !coalesce_twice.
Qed.

(** C6. The defaulting steps are idempotent: the string defaults, the
    numeric defaults and the timestamp backfill applied a second time, also
    at a later current timestamp, leave the batch as the first application
    made it; so does each step on its own. *)
Theorem defaulting_idempotent :
  forall (ts1 ts2 : datetime) (df : DataFrame),
    defaulting ts2 (defaulting ts1 df) = defaulting ts1 df
    /\ fill_strings (fill_strings df) = fill_strings df
    /\ fill_numeric (fill_numeric df) = fill_numeric df
    /\ backfill_timestamps ts2 (backfill_timestamps ts1 df)
       = backfill_timestamps ts1 df.
Proof.
  intros ts1 ts2 df. repeat split.
  - rewrite !defaulting_rows, map_map. apply map_ext. intros r.
    apply defaulting_row_twice.
  - apply fill_strings_twice.
  - apply fill_numeric_twice.
  - apply backfill_timestamps_twice.
Qed.

(** The three fields the filter looks at. *)
Definition identified (r : Flight) : Prop :=
  icao24 r <> None /\ time_position r <> None /\ ingestion_time r <> None.

Lemma valid_iff r : valid r = true <-> identified r.
Proof.
  unfold valid, identified, isNotNull.
  destruct (icao24 r), (time_position r), (ingestion_time r); cbn;
    split; intros H; try discriminate H; trivial;
    try (repeat split; discriminate);
    destruct H as (H1 & H2 & H3); congruence.
Qed.

Section TransformationFacts.

Variable P : platform.

Lemma transform_run data w :
  transform P data w
  = if forallb (fun r => is_some (ingestion_time r)) data
    then (Ok (filter_valid (defaulting (wall P (ticks w)) data)),
          mkWorld (S (ticks w)) (log w))
    else (Raise ValueError, w).
Proof.
  unfold transform, bind, lift. rewrite createDataFrame_spec.
  destruct (forallb _ data); reflexivity.
Qed.

End TransformationFacts.

(** C1. Every record of the batch [transform] returns has a non-null
    icao24, time_position and ingestion_time, and the batch is the defaulted
    input without exactly the records that lack one of the three: a defaulted
    record is in the output if and only if it has all three. *)
Theorem transform_output_identified :
  forall (P : platform) (data : list Flight) (w : world)
         (df : DataFrame) (w' : world),
    transform P data w = (Ok df, w') ->
    Forall identified df
    /\ df = filter_valid (defaulting (wall P (ticks w)) data)
    /\ (forall r, In r df
                  <-> In r (defaulting (wall P (ticks w)) data)
                      /\ identified r).
Proof.
  intros P data w df w' H. rewrite transform_run in H.
  destruct (forallb _ data); [|discriminate].
  inversion H; subst; clear H.
  split; [|split].
  - apply Forall_forall. intros r Hr. apply filter_In in Hr.
    now apply valid_iff.
  - reflexivity.
  - intros r. unfold filter_valid. rewrite filter_In.
    now rewrite valid_iff.
Qed.

(** A batch of three records: one without icao24, one without position
    time and longitude, one complete. *)
Definition sample_batch : list Flight :=
  [ sample_flight None (Some 5) (Some f10) (Some 7);
    sample_flight (Some (py "a")) None None (Some 7);
    sample_flight (Some (py "b")) (Some 6) (Some f20) (Some 7) ].

Lemma transform_output_identified_witness :
  let df := returned (transform sample_platform sample_batch world0) [] in
  Forall identified df
  /\ df = filter_valid (defaulting (wall sample_platform 0) sample_batch)
  /\ (forall r, In r df
                <-> In r (defaulting (wall sample_platform 0) sample_batch)
                    /\ identified r).
Proof.
  intros df.
  apply (transform_output_identified sample_platform sample_batch world0 df
           (snd (transform sample_platform sample_batch world0))).
  vm_compute. reflexivity.
Defined.

(** C7 (as stated, refuted). A batch with a record whose ingestion_time is
    null makes [transform] fail: the schema declares the column
    non-nullable and [createDataFrame] refuses the record. *)
Lemma transform_fails_without_ingestion_time :
  fst (transform sample_platform
         [sample_flight (Some (py "a")) (Some 5) (Some f10) None] world0)
  = Raise ValueError.
Proof. reflexivity. Qed.

(** C7 (amended). [transform] returns a batch, of at most as many records as
    its input, when every record has an ingestion_time; it fails, with the
    [ValueError] of [createDataFrame], when some record has none. *)
Theorem transform_shrinks_or_refuses :
  forall (P : platform) (data : list Flight) (w : world),
    (Forall (fun r => ingestion_time r <> None) data ->
     exists df w',
       transform P data w = (Ok df, w')
       /\ (List.length df <= List.length data)%nat)
    /\ (Exists (fun r => ingestion_time r = None) data ->
        transform P data w = (Raise ValueError, w)).
Proof.
  intros P data w. rewrite transform_run. split; intros H.
  - assert (E : forallb (fun r => is_some (ingestion_time r)) data = true).
    { apply forallb_forall. rewrite Forall_forall in H. intros r Hr.
      specialize (H r Hr). now destruct (ingestion_time r). }
    rewrite E. eexists. eexists. split; [reflexivity|].
    unfold filter_valid. rewrite defaulting_rows.
    etransitivity; [apply filter_length_le|]. now rewrite length_map.
  - assert (E : forallb (fun r => is_some (ingestion_time r)) data = false).
    { apply Exists_exists in H. destruct H as (r & Hr & Hn).
      destruct (forallb _ data) eqn:E; trivial.
      rewrite forallb_forall in E. specialize (E r Hr).
      rewrite Hn in E. discriminate. }
    now rewrite E.
Qed.

Lemma transform_shrinks_or_refuses_witness :
  (exists df w',
      transform sample_platform sample_batch world0 = (Ok df, w')
      /\ (List.length df <= List.length sample_batch)%nat)
  /\ transform sample_platform
       [sample_flight (Some (py "a")) (Some 5) (Some f10) None] world0
     = (Raise ValueError, world0).
Proof.
  split.
  - apply (proj1 (transform_shrinks_or_refuses sample_platform sample_batch
                    world0)).
    repeat constructor; discriminate.
  - apply (proj2 (transform_shrinks_or_refuses sample_platform
                    [sample_flight (Some (py "a")) (Some 5) (Some f10) None]
                    world0)).
    constructor. reflexivity.
Defined.

(** *** From extraction to transformation *)

(** A record without any null. *)
Definition complete (r : Flight) : Prop := forall c, isNotNull c r = true.

Lemma built_from_complete P current_time state fl :
  built_from P current_time state fl -> complete fl.
Proof.
  intros ((w & w' & H) & _). apply flight_of_state_inv in H.
  destruct H as (s0 & s1 & s2 & s3 & s4 & s5 & s6 & s7 & s8 & s9
                 & s10 & s11 & s13 & s14 & s15 & s16 & tp & lc & lon
                 & lat & baro & vel & trk & vr & geo & w1 & _ & _ & _ & ->).
  intros []; reflexivity.
Qed.

(** [extract] builds records without nulls. *)
Lemma extract_output_complete P resp w flights w' :
  extract P resp w = (Ok flights, w') -> Forall complete flights.
Proof.
  intros H. apply extract_inv in H. destruct H as (_ & sts & _ & HF).
  induction HF as [|state fl l l' Hb _ IH]; constructor; trivial.
  now apply built_from_complete in Hb.
Qed.

Lemma filter_valid_complete ts data :
  Forall complete data ->
  List.length (filter valid (map (defaulting_row ts) data))
  = List.length data.
Proof.
  induction 1 as [|r data Hr _ IH]; [reflexivity|].
  cbn [map filter].
  assert (Hv : valid (defaulting_row ts r) = true).
  { pose proof (Hr Icao24) as H1. pose proof (Hr Ingestion_time) as H2.
    unfold valid, isNotNull, defaulting_row in *. cbn in *.
    destruct (icao24 r), (ingestion_time r), (time_position r);
      try discriminate; reflexivity. }
  rewrite Hv. cbn [List.length]. now rewrite IH.
Qed.

(** On such a batch [transform] cannot fail and drops nothing. *)
Lemma transform_complete_batch P data w :
  Forall complete data ->
  exists df w',
    transform P data w = (Ok df, w')
    /\ List.length df = List.length data.
Proof.
  intros H. rewrite transform_run.
  assert (E : forallb (fun r => is_some (ingestion_time r)) data = true).
  { apply forallb_forall. rewrite Forall_forall in H. intros r Hr.
    apply (H r Hr Ingestion_time). }
  rewrite E. eexists. eexists. split; [reflexivity|].
  rewrite defaulting_rows. unfold filter_valid.
  now apply filter_valid_complete.
Qed.

(** ** Computations that leave the log alone *)

(** The outcome and the clock of [c] do not depend on the log, and [c]
    writes nothing to it. *)
Definition silent {A} (c : M A) : Prop :=
  forall t, exists r t', forall l, c (mkWorld t l) = (r, mkWorld t' l).

Lemma silent_ret {A} (a : A) : silent (ret a).
Proof. intros t. now exists (Ok a), t. Qed.

Lemma silent_raise {A} e : silent (@raise A e).
Proof. intros t. now exists (Raise e), t. Qed.

Lemma silent_lift {A} (r : outcome A) : silent (lift r).
Proof. intros t. now exists r, t. Qed.

Lemma silent_now P : silent (now P).
Proof. intros t. now exists (Ok (wall P t)), (S t). Qed.

Lemma silent_item state i : silent (item state i).
Proof.
  unfold item. destruct (nth_error state i);
    [apply silent_ret|apply silent_raise].
Qed.

Lemma silent_bind {A B} (c : M A) (k : A -> M B) :
  silent c -> (forall a, silent (k a)) -> silent (bind c k).
Proof.
  intros Hc Hk t. destruct (Hc t) as (r & t1 & H1).
  destruct r as [a|e].
  - destruct (Hk a t1) as (r2 & t2 & H2). exists r2, t2. intros l.
    unfold bind. now rewrite H1, H2.
  - exists (Raise e), t1. intros l. unfold bind. now rewrite H1.
Qed.

Lemma silent_try_except {A} (c h : M A) :
  silent c -> silent h -> silent (try_except c h).
Proof.
  intros Hc Hh t. destruct (Hc t) as (r & t1 & H1).
  destruct r as [a|e].
  - exists (Ok a), t1. intros l. unfold try_except. now rewrite H1.
  - destruct (value_or_type_error e) eqn:E.
    + destruct (Hh t1) as (r2 & t2 & H2). exists r2, t2. intros l.
      unfold try_except. now rewrite H1, E, H2.
    + exists (Raise e), t1. intros l. unfold try_except. now rewrite H1, E.
Qed.

Lemma silent_safe_float_convert P v : silent (safe_float_convert P v).
Proof.
  unfold safe_float_convert. destruct (is_None v).
  - apply silent_ret.
  - apply silent_try_except; [apply silent_lift|apply silent_ret].
Qed.

Lemma silent_safe_timestamp_convert P v : silent (safe_timestamp_convert P v).
Proof.
  unfold safe_timestamp_convert. apply silent_try_except.
  - destruct (truthy v); [apply silent_lift|apply silent_now].
  - apply silent_now.
Qed.

Lemma silent_flight_of_state P state current_time :
  silent (flight_of_state P state current_time).
Proof.
  unfold flight_of_state.
  repeat first
    [ apply silent_ret
    | apply silent_bind;
      [ first [ apply silent_item | apply silent_safe_float_convert
              | apply silent_safe_timestamp_convert ]
      | intros ? ] ].
Qed.

Lemma silent_for_states P sts current_time :
  forall flights, silent (for_states P sts current_time flights).
Proof.
  induction sts as [|state rest IH]; intros flights; cbn [for_states].
  - apply silent_ret.
  - apply silent_bind; [apply silent_item|]. intros s0.
    destruct (negb (truthy s0)); [apply IH|].
    apply silent_bind; [apply silent_flight_of_state|]. intros fl. apply IH.
Qed.

Lemma silent_extract P resp : silent (extract P resp).
Proof.
  unfold extract. destruct (negb (status_code resp =? 200)).
  - apply silent_raise.
  - apply silent_bind; [apply silent_now|]. intros current_time.
    destruct (states resp);
      [apply silent_for_states|apply silent_raise|apply silent_for_states].
Qed.

Lemma silent_transform P data : silent (transform P data).
Proof.
  unfold transform. apply silent_bind; [apply silent_lift|]. intros df.
  apply silent_bind; [apply silent_now|]. intros ts. apply silent_ret.
Qed.

(** A silent computation at another log. *)
Lemma silent_at {A} (c : M A) w l :
  silent c ->
  c (mkWorld (ticks w) l) = (fst (c w), mkWorld (ticks (snd (c w))) l)
  /\ log (snd (c w)) = log w.
Proof.
  intros H. destruct (H (ticks w)) as (r & t' & E).
  destruct w as [t l0]. cbn [ticks log]. now rewrite !E.
Qed.

(** ** An engine: one partition, a stable insertion sort by descending count *)

Definition count_ge (a b : option float * nat) : Prop := (snd b <= snd a)%nat.

Fixpoint insert_desc (x : option float * nat) (l : list (option float * nat))
  : list (option float * nat) :=
  match l with
  | [] => [x]
  | y :: l' =>
      if (snd y <? snd x)%nat then x :: y :: l' else y :: insert_desc x l'
  end.

Definition sort_desc (l : list (option float * nat))
  : list (option float * nat) :=
  fold_right insert_desc [] l.

Lemma insert_desc_perm x l : Permutation (x :: l) (insert_desc x l).
Proof.
  induction l as [|y l IH]; cbn [insert_desc].
  - apply Permutation_refl.
  - destruct (snd y <? snd x)%nat.
    + apply Permutation_refl.
    + apply perm_trans with (y :: x :: l); [apply perm_swap|].
      now apply perm_skip.
Qed.

Lemma sort_desc_perm l : Permutation l (sort_desc l).
Proof.
  induction l as [|x l IH]; cbn.
  - apply perm_nil.
  - apply perm_trans with (x :: sort_desc l); [now apply perm_skip|].
    apply insert_desc_perm.
Qed.

Lemma insert_desc_sorted x l :
  StronglySorted count_ge l -> StronglySorted count_ge (insert_desc x l).
Proof.
  induction 1 as [|y l Hs IH Hy]; cbn [insert_desc].
  - repeat constructor.
  - destruct (snd y <? snd x)%nat eqn:E.
    + apply Nat.ltb_lt in E. constructor; [now constructor|].
      constructor; [unfold count_ge; lia|].
      eapply Forall_impl; [|exact Hy]. unfold count_ge. intros a Ha. lia.
    + apply Nat.ltb_ge in E. constructor; trivial.
      eapply Permutation_Forall; [apply insert_desc_perm|].
      constructor; trivial.
Qed.

Lemma sort_desc_sorted l : StronglySorted count_ge (sort_desc l).
Proof.
  induction l as [|x l IH]; cbn.
  - constructor.
  - now apply insert_desc_sorted.
Qed.

(** The sum of an engine that holds the rows in one partition: the sum of
    that partition, added to the final buffer. *)
Definition single_partition_sum (xs : list float) : float :=
  partial_sum [partial_sum xs].

Lemma single_partition_sum_partitioned xs :
  partitioned_sum xs (single_partition_sum xs).
Proof.
  exists [xs], [partial_sum xs]. cbn [List.concat map]. rewrite app_nil_r.
  repeat split. apply Permutation_refl.
Qed.

Definition stable_engine : engine :=
  {| sum_doubles := single_partition_sum;
     sum_partitioned := single_partition_sum_partitioned;
     orderBy_count_desc := sort_desc;
     orderBy_perm := sort_desc_perm;
     orderBy_sorted := sort_desc_sorted |}.

(** ** The pipeline *)

Lemma emit_run e w : emit e w = (Ok tt, mkWorld (ticks w) (log w ++ [e])).
Proof. reflexivity. Qed.

(** The lines [print_statistics] writes. *)
Fixpoint statistics_lines (statistics : list (column * descriptor))
  : list event :=
  match statistics with
  | [] => []
  | (c, stats) :: rest =>
      [ Print (MsgStatisticsFor c); Print (MsgMean (d_mean stats));
        Print (MsgMin (d_min stats)); Print (MsgMax (d_max stats));
        Print (MsgCount (d_count stats)); Print (MsgMode (d_mode stats)) ]
      ++ statistics_lines rest
  end.

Lemma print_statistics_run statistics : forall w,
  print_statistics statistics w
  = (Ok tt, mkWorld (ticks w) (log w ++ statistics_lines statistics)).
Proof.
  induction statistics as [|[c stats] rest IH]; intros [t l].
  - cbn. now rewrite app_nil_r.
  - cbn [print_statistics statistics_lines]. unfold bind, emit.
    cbn [ticks log]. rewrite IH. cbn [ticks log].
    now rewrite <- !app_assoc.
Qed.

Lemma statistics_lines_no_call statistics s :
  ~ In (Call s) (statistics_lines statistics).
Proof.
  induction statistics as [|[c stats] rest IH]; cbn; [tauto|].
  intros [H|[H|[H|[H|[H|[H|H]]]]]]; try discriminate. now apply IH.
Qed.

Section PipelineFacts.

Variable P : platform.
Variable E : engine.

(** The try block when the extraction gives an empty batch. *)
Lemma pipeline_steps_empty resp w :
  fst (extract P resp w) = Ok [] ->
  pipeline_steps P E resp w
  = (Ok tt,
     mkWorld (ticks (snd (extract P resp w)))
             (log w ++ [Print MsgStarting; Call Extract;
                        Print MsgNoValidData])).
Proof.
  intros H. unfold pipeline_steps, call.
  rewrite (bind_ok _ _ _ _ _ (emit_run _ _)).
  erewrite (bind_ok (emit (Call Extract) ;;; extract P resp)).
  2: { rewrite (bind_ok _ _ _ _ _ (emit_run _ _)). cbn [ticks log].
       destruct (silent_at (extract P resp) w
                   ((log w ++ [Print MsgStarting]) ++ [Call Extract])
                   (silent_extract P resp)) as (Hx & _).
       rewrite Hx, H. reflexivity. }
  cbn [is_empty]. rewrite emit_run. cbn [ticks log].
  now rewrite <- !app_assoc.
Qed.

(** The try block in general: what it appends to the log, and what a call
    of [load] in it means. *)
Lemma pipeline_steps_log resp w :
  exists r t' evs,
    pipeline_steps P E resp w = (r, mkWorld t' (log w ++ evs))
    /\ (In (Call Load) evs ->
        exists raw df,
          fst (extract P resp w) = Ok raw
          /\ fst (transform P raw (snd (extract P resp w))) = Ok df
          /\ (0 < List.length df)%nat).
Proof.
  unfold pipeline_steps, call.
  rewrite (bind_ok _ _ _ _ _ (emit_run _ _)).
  destruct (silent_at (extract P resp) w
              ((log w ++ [Print MsgStarting]) ++ [Call Extract])
              (silent_extract P resp)) as (Hx & _).
  destruct (extract P resp w) as [[raw|e] wx] eqn:Ex; cbn [fst snd] in Hx.
  2: { (* the extraction fails *)
       erewrite (bind_raise (emit (Call Extract) ;;; extract P resp)).
       2: { rewrite (bind_ok _ _ _ _ _ (emit_run _ _)). cbn [ticks log].
            exact Hx. }
       eexists. eexists. exists [Print MsgStarting; Call Extract].
       split; [now rewrite <- app_assoc|].
       intros [H|[H|[]]]; discriminate. }
  erewrite (bind_ok (emit (Call Extract) ;;; extract P resp)).
  2: { rewrite (bind_ok _ _ _ _ _ (emit_run _ _)). cbn [ticks log].
       exact Hx. }
  destruct raw as [|r0 raw]; cbn [is_empty].
  { rewrite emit_run. cbn [ticks log].
    eexists. eexists.
    exists [Print MsgStarting; Call Extract; Print MsgNoValidData].
    split; [now rewrite <- !app_assoc|].
    intros [H|[H|[H|[]]]]; discriminate. }
  set (raw' := r0 :: raw) in *.
  set (l1 := (log w ++ [Print MsgStarting]) ++ [Call Extract]).
  destruct (silent_at (transform P raw') wx (l1 ++ [Call Transform])
              (silent_transform P raw')) as (Ht & _).
  destruct (transform P raw' wx) as [[df|e] wt] eqn:Et; cbn [fst snd] in Ht.
  2: { erewrite (bind_raise (emit (Call Transform) ;;; transform P raw')).
       2: { rewrite (bind_ok _ _ _ _ _ (emit_run _ _)). cbn [ticks log].
            exact Ht. }
       eexists. eexists.
       exists [Print MsgStarting; Call Extract; Call Transform].
       split; [unfold l1; now rewrite <- !app_assoc|].
       intros [H|[H|[H|[]]]]; discriminate. }
  erewrite (bind_ok (emit (Call Transform) ;;; transform P raw')).
  2: { rewrite (bind_ok _ _ _ _ _ (emit_run _ _)). cbn [ticks log].
       exact Ht. }
  erewrite bind_ok.
  2: { rewrite (bind_ok _ _ _ _ _ (emit_run _ _)). reflexivity. }
  rewrite (bind_ok _ _ _ _ _ (print_statistics_run _ _)).
  rewrite (bind_ok _ _ _ _ _ (emit_run _ _)).
  cbn [ticks log].
  set (stats := statistics_lines (calculate_statistics E df)).
  destruct (0 <? List.length df)%nat eqn:Ecount.
  - apply Nat.ltb_lt in Ecount.
    rewrite (bind_ok _ _ _ _ _ (emit_run _ _)). cbn [ticks log].
    unfold load. destruct (sink P df) as [e|].
    + erewrite bind_raise.
      2: { rewrite (bind_ok _ _ _ _ _ (emit_run _ _)). reflexivity. }
      eexists. eexists.
      exists ([Print MsgStarting; Call Extract; Call Transform;
               Call Statistics] ++ stats
              ++ [Print (MsgNumberOfRecords (List.length df));
                  Print MsgLoading; Call Load]).
      split.
      * unfold l1. cbn [ticks log]. now rewrite <- !app_assoc.
      * intros _. exists raw', df. cbn [fst snd]. rewrite Et. auto.
    + erewrite bind_ok.
      2: { rewrite (bind_ok _ _ _ _ _ (emit_run _ _)). reflexivity. }
      rewrite emit_run.
      eexists. eexists.
      exists ([Print MsgStarting; Call Extract; Call Transform;
               Call Statistics] ++ stats
              ++ [Print (MsgNumberOfRecords (List.length df));
                  Print MsgLoading; Call Load; Print MsgCompleted]).
      split.
      * unfold l1. cbn [ticks log]. now rewrite <- !app_assoc.
      * intros _. exists raw', df. cbn [fst snd]. rewrite Et. auto.
  - rewrite emit_run.
    eexists. eexists.
    exists ([Print MsgStarting; Call Extract; Call Transform;
             Call Statistics] ++ stats
            ++ [Print (MsgNumberOfRecords (List.length df));
                Print MsgNoValidRecords]).
    split.
    + unfold l1. cbn [ticks log]. now rewrite <- !app_assoc.
    + intros H. exfalso. cbn [app] in H.
      destruct H as [H|[H|[H|[H|H]]]]; try discriminate.
      apply in_app_or in H. destruct H as [H|[H|[H|[]]]]; try discriminate.
      now apply statistics_lines_no_call in H.
Qed.

End PipelineFacts.

(** C9. When the extraction yields an empty batch the run ends without
    error right after Extract: the log shows the call of Extract, the notice
    and the release of the session, and no call of Transform, Statistics or
    Load. And Load is called only for a transformed batch with at least one
    record: never when the transformed batch has zero records. *)
Theorem pipeline_short_circuits :
  forall (P : platform) (E : engine) (resp : response) (w : world),
    (fst (extract P resp w) = Ok [] ->
     run_pipeline P E resp w
     = (Ok tt,
        mkWorld (ticks (snd (extract P resp w)))
                (log w ++ [Print MsgStarting; Call Extract;
                           Print MsgNoValidData; Call SparkStop])))
    /\ (~ In (Call Load) (log w) ->
        In (Call Load) (log (snd (run_pipeline P E resp w))) ->
        exists raw df,
          fst (extract P resp w) = Ok raw
          /\ fst (transform P raw (snd (extract P resp w))) = Ok df
          /\ (0 < List.length df)%nat).
Proof.
  intros P E resp w. split.
  - intros H. unfold run_pipeline, try_finally, try_reraise.
    rewrite (pipeline_steps_empty P E resp w H).
    unfold call. rewrite (bind_ok _ _ _ _ _ (emit_run _ _)).
    unfold ret. cbn [ticks log]. now rewrite <- app_assoc.
  - intros Hw Hin.
    destruct (pipeline_steps_log P E resp w) as (r & t' & evs & Hrun & Hload).
    apply Hload. clear Hload.
    unfold run_pipeline, try_finally, try_reraise in Hin.
    rewrite Hrun in Hin. unfold call in Hin.
    destruct r as [[]|e].
    + rewrite (bind_ok _ _ _ _ _ (emit_run _ _)) in Hin.
      cbn [ret snd log ticks] in Hin.
      apply in_app_or in Hin. destruct Hin as [Hin|[Hin|[]]];
        [|discriminate].
      apply in_app_or in Hin. tauto.
    + rewrite emit_run in Hin. cbn [ticks log] in Hin.
      rewrite (bind_ok _ _ _ _ _ (emit_run _ _)) in Hin.
      cbn [ret snd log ticks] in Hin.
      apply in_app_or in Hin. destruct Hin as [Hin|[Hin|[]]];
        [|discriminate].
      apply in_app_or in Hin. destruct Hin as [Hin|[Hin|[]]];
        [|discriminate].
      apply in_app_or in Hin. tauto.
Qed.

Lemma pipeline_short_circuits_witness :
  run_pipeline sample_platform stable_engine (ok_response []) world0
  = (Ok tt,
     mkWorld 1 [Print MsgStarting; Call Extract; Print MsgNoValidData;
                Call SparkStop])
  /\ exists raw df,
       fst (extract sample_platform (ok_response [sample_state]) world0)
       = Ok raw
       /\ fst (transform sample_platform raw
                 (snd (extract sample_platform (ok_response [sample_state])
                         world0)))
          = Ok df
       /\ (0 < List.length df)%nat.
Proof.
  split.
  - apply (proj1 (pipeline_short_circuits sample_platform stable_engine
                    (ok_response []) world0)).
    reflexivity.
  - apply (proj2 (pipeline_short_circuits sample_platform stable_engine
                    (ok_response [sample_state]) world0)).
    + simpl. tauto.
    + vm_compute. repeat (try (left; reflexivity); right).
Defined.

(** ** Statistics *)

(** *** The ordering of doubles

    [compare_double] is the lexicographic comparison of ranks: NaN above
    [+inf], above the positive numbers by exponent and mantissa, above the
    zeros, above the negative numbers, above [-inf]. *)

Definition rank (f : float) : Z * Z * Z :=
  match f with
  | S754_nan => (3, 0, 0)
  | S754_infinity false => (2, 0, 0)
  | S754_finite false m e => (1, e, Zpos m)
  | S754_zero _ => (0, 0, 0)
  | S754_finite true m e => (-1, - e, - Zpos m)
  | S754_infinity true => (-2, 0, 0)
  end.

Definition lex_lt (a b : Z * Z * Z) : Prop :=
  let '(a1, a2, a3) := a in
  let '(b1, b2, b3) := b in
  a1 < b1 \/ (a1 = b1 /\ (a2 < b2 \/ (a2 = b2 /\ a3 < b3))).

Lemma compare_double_spec x y :
  CompareSpec (rank x = rank y) (lex_lt (rank x) (rank y))
              (lex_lt (rank y) (rank x)) (compare_double x y).
Proof.
  destruct x as [sx|sx| |sx mx ex], y as [sy|sy| |sy my ey];
    try destruct sx; try destruct sy; cbn;
    try (constructor; cbn; first [reflexivity | lia]).
  - (* two negative numbers *)
    destruct (Z.compare_spec ex ey) as [He|He|He].
    + rewrite Pos.compare_cont_spec. cbn [Pos.switch_Eq].
      destruct (Pos.compare_spec mx my) as [Hm|Hm|Hm]; cbn;
        constructor; cbn; first [congruence | lia].
    + constructor; cbn; lia.
    + constructor; cbn; lia.
  - (* two positive numbers *)
    destruct (Z.compare_spec ex ey) as [He|He|He].
    + rewrite Pos.compare_cont_spec. cbn [Pos.switch_Eq].
      destruct (Pos.compare_spec mx my) as [Hm|Hm|Hm];
        constructor; cbn; first [congruence | lia].
    + constructor; cbn; lia.
    + constructor; cbn; lia.
Qed.

Lemma lex_lt_irrefl a : ~ lex_lt a a.
Proof. destruct a as [[a1 a2] a3]. cbn. lia. Qed.

Lemma lex_lt_trans a b c : lex_lt a b -> lex_lt b c -> lex_lt a c.
Proof.
  destruct a as [[a1 a2] a3], b as [[b1 b2] b3], c as [[c1 c2] c3]. cbn. lia.
Qed.

Lemma lex_lt_asym a b : lex_lt a b -> ~ lex_lt b a.
Proof. intros H H'. exact (lex_lt_irrefl a (lex_lt_trans a b a H H')). Qed.

Lemma lex_total a b : lex_lt a b \/ a = b \/ lex_lt b a.
Proof.
  destruct a as [[a1 a2] a3], b as [[b1 b2] b3]. cbn.
  destruct (Z.lt_total a1 b1) as [H|[H|H]]; [lia| |lia].
  destruct (Z.lt_total a2 b2) as [H2|[H2|H2]]; [lia| |lia].
  destruct (Z.lt_total a3 b3) as [H3|[H3|H3]]; [lia| |lia].
  right. left. congruence.
Qed.

Lemma double_eqb_iff x y : double_eqb x y = true <-> rank x = rank y.
Proof.
  unfold double_eqb. destruct (compare_double_spec x y) as [H|H|H];
    split; trivial; try discriminate; intros E; rewrite E in H;
    now apply lex_lt_irrefl in H.
Qed.

Lemma double_ltb_iff x y :
  double_ltb x y = true <-> lex_lt (rank x) (rank y).
Proof.
  unfold double_ltb. destruct (compare_double_spec x y) as [H|H|H];
    split; trivial; try discriminate; intros E.
  - rewrite H in E. now apply lex_lt_irrefl in E.
  - now apply lex_lt_asym in E.
Qed.

Lemma double_leb_iff x y :
  double_leb x y = true <-> ~ lex_lt (rank y) (rank x).
Proof.
  unfold double_leb. destruct (compare_double_spec x y) as [H|H|H];
    split; trivial; try discriminate; intros E.
  - rewrite H. apply lex_lt_irrefl.
  - now apply lex_lt_asym.
  - contradiction.
Qed.

Lemma double_leb_refl x : double_leb x x = true.
Proof. apply double_leb_iff, lex_lt_irrefl. Qed.

Lemma double_leb_trans x y z :
  double_leb x y = true -> double_leb y z = true -> double_leb x z = true.
Proof.
  rewrite !double_leb_iff. intros Hxy Hyz Hzx.
  destruct (lex_total (rank x) (rank y)) as [H|[H|H]].
  - apply Hyz. eapply lex_lt_trans; eassumption.
  - rewrite H in Hzx. contradiction.
  - contradiction.
Qed.

Lemma double_ltb_leb x y : double_ltb x y = true -> double_leb x y = true.
Proof. rewrite double_ltb_iff, double_leb_iff. apply lex_lt_asym. Qed.

Lemma double_nltb_leb x y : double_ltb x y = false -> double_leb y x = true.
Proof.
  intros H. apply double_leb_iff. intros H'.
  apply double_ltb_iff in H'. congruence.
Qed.

Lemma double_eqb_refl x : double_eqb x x = true.
Proof. now apply double_eqb_iff. Qed.

Lemma double_eqb_sym x y : double_eqb x y = double_eqb y x.
Proof.
  destruct (double_eqb x y) eqn:E, (double_eqb y x) eqn:E'; trivial.
  - apply double_eqb_iff in E. symmetry in E. apply double_eqb_iff in E.
    congruence.
  - apply double_eqb_iff in E'. symmetry in E'. apply double_eqb_iff in E'.
    congruence.
Qed.

Lemma double_eqb_trans x y z :
  double_eqb x y = true -> double_eqb y z = true -> double_eqb x z = true.
Proof. rewrite !double_eqb_iff. congruence. Qed.

Lemma rank_normalize_key x : rank (normalize_key x) = rank x.
Proof. now destruct x as [[]|[]| |[]]. Qed.

(** *** Aggregates over a column without nulls *)

(** [o] is an extremum of [xs] for [le]: one of the values, below (or above)
    all of them; no value at all when there is none. *)
Definition extremum (le : float -> float -> bool) (xs : list float)
  (o : option float) : Prop :=
  match o with
  | Some m => In m xs /\ forall x, In x xs -> le m x = true
  | None => xs = []
  end.

Definition double_geb (x y : float) : bool := double_leb y x.

Lemma agg_min_from xs : forall m,
  exists m',
    fold_left (fun acc v =>
                 match v, acc with
                 | None, _ => acc
                 | Some x, None => Some x
                 | Some x, Some m => if double_ltb x m then Some x else Some m
                 end) (map Some xs) (Some m) = Some m'
    /\ (m' = m \/ In m' xs)
    /\ double_leb m' m = true
    /\ forall x, In x xs -> double_leb m' x = true.
Proof.
  induction xs as [|x xs IH]; intros m; cbn [map fold_left].
  - exists m. split; [reflexivity|]. split; [now left|].
    split; [apply double_leb_refl|]. intros x [].
  - destruct (double_ltb x m) eqn:E.
    + destruct (IH x) as (m' & Hf & Hin & Hle & Hall). exists m'.
      repeat split; trivial.
      * right. destruct Hin as [->|Hin]; [now left|now right].
      * eapply double_leb_trans; [exact Hle|now apply double_ltb_leb].
      * intros y [<-|Hy]; auto.
    + destruct (IH m) as (m' & Hf & Hin & Hle & Hall). exists m'.
      repeat split; trivial.
      * destruct Hin as [->|Hin]; [now left|right; now right].
      * intros y [<-|Hy]; auto.
        eapply double_leb_trans; [exact Hle|now apply double_nltb_leb].
Qed.

Lemma agg_min_spec xs : extremum double_leb xs (agg_min (map Some xs)).
Proof.
  unfold agg_min. destruct xs as [|x xs]; cbn [map fold_left].
  - reflexivity.
  - destruct (agg_min_from xs x) as (m' & -> & Hin & Hle & Hall). cbn. split.
    + destruct Hin as [->|Hin]; [now left|now right].
    + intros y [<-|Hy]; auto.
Qed.

Lemma agg_max_from xs : forall m,
  exists m',
    fold_left (fun acc v =>
                 match v, acc with
                 | None, _ => acc
                 | Some x, None => Some x
                 | Some x, Some m => if double_ltb m x then Some x else Some m
                 end) (map Some xs) (Some m) = Some m'
    /\ (m' = m \/ In m' xs)
    /\ double_leb m m' = true
    /\ forall x, In x xs -> double_leb x m' = true.
Proof.
  induction xs as [|x xs IH]; intros m; cbn [map fold_left].
  - exists m. split; [reflexivity|]. split; [now left|].
    split; [apply double_leb_refl|]. intros x [].
  - destruct (double_ltb m x) eqn:E.
    + destruct (IH x) as (m' & Hf & Hin & Hle & Hall). exists m'.
      repeat split; trivial.
      * right. destruct Hin as [->|Hin]; [now left|now right].
      * apply (double_leb_trans m x m'); [now apply double_ltb_leb|exact Hle].
      * intros y [<-|Hy]; auto.
    + destruct (IH m) as (m' & Hf & Hin & Hle & Hall). exists m'.
      repeat split; trivial.
      * destruct Hin as [->|Hin]; [now left|right; now right].
      * intros y [<-|Hy]; auto.
        apply (double_leb_trans x m m'); [now apply double_nltb_leb|exact Hle].
Qed.

Lemma agg_max_spec xs : extremum double_geb xs (agg_max (map Some xs)).
Proof.
  unfold agg_max, double_geb. destruct xs as [|x xs]; cbn [map fold_left].
  - reflexivity.
  - destruct (agg_max_from xs x) as (m' & -> & Hin & Hle & Hall). cbn. split.
    + destruct Hin as [->|Hin]; [now left|now right].
    + intros y [<-|Hy]; auto.
Qed.

Lemma agg_count_spec xs : agg_count (map Some xs) = List.length xs.
Proof.
  unfold agg_count. induction xs as [|x xs IH]; cbn; [reflexivity|].
  now f_equal.
Qed.

Lemma agg_sum_spec (E : engine) xs :
  agg_sum E (map Some xs) = sum_doubles E xs.
Proof. unfold agg_sum. now rewrite map_map, map_id. Qed.

(** [m] is a double mean of [xs]: null when there is no value, otherwise
    the double quotient of a partitioned sum of [xs] by the number of
    values. *)
Definition double_mean (xs : list float) (m : option float) : Prop :=
  match xs with
  | [] => m = None
  | _ => exists s,
           partitioned_sum xs s
           /\ m = Some (fdiv s (float_of_Z (Z.of_nat (List.length xs))))
  end.

Lemma agg_mean_spec (E : engine) xs :
  double_mean xs (agg_mean E (map Some xs)).
Proof.
  unfold agg_mean, double_mean. rewrite agg_count_spec, agg_sum_spec.
  destruct xs as [|x xs]; [reflexivity|].
  exists (sum_doubles E (x :: xs)). split; [apply sum_partitioned|].
  reflexivity.
Qed.

(** *** Grouping and the mode *)

Definition key_rank (k : option float) : option (Z * Z * Z) :=
  option_map rank k.

Lemma key_eqb_iff a b : key_eqb a b = true <-> key_rank a = key_rank b.
Proof.
  destruct a as [x|], b as [y|]; cbn; try (split; congruence).
  rewrite double_eqb_iff. split; congruence.
Qed.

Lemma key_eqb_ext a a' b b' :
  key_rank a = key_rank a' -> key_rank b = key_rank b' ->
  key_eqb a b = key_eqb a' b'.
Proof.
  intros Ha Hb.
  destruct (key_eqb a b) eqn:E, (key_eqb a' b') eqn:E'; trivial.
  - apply key_eqb_iff in E. rewrite Ha, Hb in E. apply key_eqb_iff in E.
    congruence.
  - apply key_eqb_iff in E'. rewrite <- Ha, <- Hb in E'.
    apply key_eqb_iff in E'. congruence.
Qed.

Lemma key_rank_normalize v :
  key_rank (option_map normalize_key v) = key_rank v.
Proof. destruct v as [x|]; cbn; [|reflexivity]. now rewrite rank_normalize_key. Qed.

(** How often the key [k] occurs among [vs]. *)
Definition occurrences (k : option float) (vs : list (option float)) : nat :=
  List.length (filter (key_eqb k) vs).

(** The count recorded for [k]: that of the first group with an equal key. *)
Definition count_of (k : option float) (groups : list (option float * nat))
  : nat :=
  match find (fun g => key_eqb k (fst g)) groups with
  | Some g => snd g
  | None => O
  end.

Lemma occurrences_app k vs v :
  occurrences k (vs ++ [v])
  = (occurrences k vs + if key_eqb k v then 1 else 0)%nat.
Proof.
  unfold occurrences. rewrite filter_app, length_app. cbn [filter].
  now destruct (key_eqb k v).
Qed.

Lemma count_of_bump k' k groups :
  count_of k' (bump k groups)
  = (count_of k' groups + if key_eqb k' k then 1 else 0)%nat.
Proof.
  unfold count_of.
  induction groups as [|[k1 n1] rest IH]; cbn [bump find fst snd].
  - destruct (key_eqb k' k); reflexivity.
  - destruct (key_eqb k k1) eqn:E1; cbn [find fst snd].
    + apply key_eqb_iff in E1.
      rewrite (key_eqb_ext k' k' k k1 eq_refl E1).
      destruct (key_eqb k' k1); cbn [snd]; lia.
    + destruct (key_eqb k' k1) eqn:E2; cbn [snd].
      * assert (E3 : key_eqb k' k = false).
        { destruct (key_eqb k' k) eqn:E3; trivial.
          apply key_eqb_iff in E2, E3.
          assert (E4 : key_eqb k k1 = true) by (apply key_eqb_iff; congruence).
          congruence. }
        rewrite E3. lia.
      * exact IH.
Qed.

Lemma bump_In k groups k' n' :
  In (k', n') (bump k groups) ->
  In (k', n') groups
  \/ (exists n, In (k', n) groups /\ key_eqb k k' = true /\ n' = S n)
  \/ (k' = k /\ n' = 1%nat).
Proof.
  induction groups as [|[k1 n1] rest IH]; cbn [bump].
  - intros [H|[]]. inversion H; subst. right. right. now split.
  - destruct (key_eqb k k1) eqn:E1.
    + intros [H|H].
      * inversion H; subst. right. left. exists n1.
        repeat split; trivial. now left.
      * left. now right.
    + intros [H|H].
      * left. now left.
      * destruct (IH H) as [H1|[(n & H1 & H2 & H3)|H1]].
        -- left. now right.
        -- right. left. exists n. repeat split; trivial. now right.
        -- right. now right.
Qed.

(** What the groups record about the values grouped so far. *)
Definition groups_of (groups : list (option float * nat))
  (vs : list (option float)) : Prop :=
  (forall k n, In (k, n) groups ->
               (n <= occurrences k vs)%nat
               /\ exists v, In v vs /\ k = option_map normalize_key v)
  /\ (forall k, count_of k groups = occurrences k vs).

Lemma groups_of_bump groups vs v :
  groups_of groups vs ->
  groups_of (bump (option_map normalize_key v) groups) (vs ++ [v]).
Proof.
  intros (H1 & H2). split.
  - intros k n Hin. rewrite occurrences_app.
    apply bump_In in Hin. destruct Hin as [Hin|[(n0 & Hin & Hk & ->)|[-> ->]]].
    + destruct (H1 k n Hin) as (Hle & v0 & Hv0 & Hk). split; [lia|].
      exists v0. split; trivial. apply in_or_app. now left.
    + destruct (H1 k n0 Hin) as (Hle & v0 & Hv0 & Hk0).
      assert (E : key_eqb k v = true).
      { apply key_eqb_iff. apply key_eqb_iff in Hk.
        rewrite key_rank_normalize in Hk. congruence. }
      rewrite E. split; [lia|].
      exists v0. split; trivial. apply in_or_app. now left.
    + assert (E : key_eqb (option_map normalize_key v) v = true).
      { apply key_eqb_iff, key_rank_normalize. }
      rewrite E. split; [lia|].
      exists v. split; trivial. apply in_or_app. right. now left.
  - intros k. rewrite count_of_bump, occurrences_app, H2.
    now rewrite (key_eqb_ext k k (option_map normalize_key v) v eq_refl
                   (key_rank_normalize v)).
Qed.

Lemma groups_of_fold vs : forall groups pre,
  groups_of groups pre ->
  groups_of (fold_left (fun groups v => bump (option_map normalize_key v) groups)
                       vs groups)
            (pre ++ vs).
Proof.
  induction vs as [|v vs IH]; intros groups pre H; cbn [fold_left].
  - now rewrite app_nil_r.
  - replace (pre ++ v :: vs) with ((pre ++ [v]) ++ vs)
      by now rewrite <- app_assoc.
    apply IH. now apply groups_of_bump.
Qed.

Lemma groupBy_count_spec vs : groups_of (groupBy_count vs) vs.
Proof.
  apply (groups_of_fold vs [] []). split.
  - intros k n [].
  - intros k. reflexivity.
Qed.

Lemma count_of_In k groups :
  count_of k groups = O \/ exists k', In (k', count_of k groups) groups.
Proof.
  unfold count_of.
  destruct (find (fun g => key_eqb k (fst g)) groups) as [[k' n]|] eqn:E.
  - right. exists k'. apply find_some in E. tauto.
  - now left.
Qed.

(** How often the double [x] occurs among [xs], for the engine's equality. *)
Definition times (x : float) (xs : list float) : nat :=
  List.length (filter (double_eqb x) xs).

Lemma occurrences_Some x xs : occurrences (Some x) (map Some xs) = times x xs.
Proof.
  unfold occurrences, times.
  induction xs as [|y xs IH]; cbn; [reflexivity|].
  destruct (double_eqb x y); cbn; now rewrite IH.
Qed.

(** [o] is a most frequent value of [xs]: equal to one of the values, and no
    value occurs more often; no value at all when there is none. *)
Definition most_frequent (xs : list float) (o : option float) : Prop :=
  match o with
  | Some m =>
      (exists x, In x xs /\ double_eqb x m = true)
      /\ forall x, (times x xs <= times m xs)%nat
  | None => xs = []
  end.

Lemma agg_mode_spec E xs : most_frequent xs (agg_mode E (map Some xs)).
Proof.
  unfold agg_mode.
  pose proof (groupBy_count_spec (map Some xs)) as (H1 & H2).
  pose proof (orderBy_perm E (groupBy_count (map Some xs))) as Hperm.
  pose proof (orderBy_sorted E (groupBy_count (map Some xs))) as Hsort.
  destruct (orderBy_count_desc E (groupBy_count (map Some xs)))
    as [|[k n] rest] eqn:Eo; cbn [hd_error fst].
  - (* no group: no value *)
    apply Permutation_sym, Permutation_nil in Hperm.
    destruct xs as [|x xs]; [reflexivity|exfalso].
    specialize (H2 (Some x)). rewrite Hperm in H2. cbn in H2.
    rewrite double_eqb_refl in H2. discriminate.
  - assert (Hin : In (k, n) (groupBy_count (map Some xs))).
    { eapply Permutation_in; [apply Permutation_sym; exact Hperm|now left]. }
    destruct (H1 k n Hin) as (Hle & v & Hv & Hk).
    apply in_map_iff in Hv. destruct Hv as (x & <- & Hx).
    cbn in Hk. subst k. cbn. split.
    + exists x. split; trivial. apply double_eqb_iff.
      symmetry. apply rank_normalize_key.
    + intros y. rewrite occurrences_Some in Hle.
      rewrite <- (occurrences_Some y), <- H2.
      destruct (count_of_In (Some y) (groupBy_count (map Some xs)))
        as [->|(k' & Hk')]; [lia|].
      apply (Permutation_in _ Hperm) in Hk'.
      destruct Hk' as [Hk'|Hk'].
      * inversion Hk'. lia.
      * inversion Hsort as [|a l Hs Hall]; subst.
        rewrite Forall_forall in Hall. specialize (Hall _ Hk').
        cbn in Hall. lia.
Qed.

(** *** The statistics of a transformed batch *)

Lemma calculate_statistics_columns E df :
  calculate_statistics E df
  = map (fun c => (c, describe E (map (get_double c) df))) numeric_columns.
Proof. reflexivity. Qed.

Lemma fill_double_some d o :
  is_nan d = false ->
  exists x, fill_double d o = Some x /\ is_nan x = false.
Proof.
  intros Hd. destruct o as [f|]; cbn.
  - destruct (is_nan f) eqn:E; eauto.
  - eauto.
Qed.

Lemma defaulting_row_double ts r c :
  In c numeric_columns ->
  exists x, get_double c (defaulting_row ts r) = Some x /\ is_nan x = false.
Proof.
  cbn. intros [<-|[<-|[<-|[<-|[<-|[<-|[<-|[]]]]]]]]; cbn;
    now apply fill_double_some.
Qed.

Lemma column_values (c : column) (df : DataFrame) :
  Forall (fun r => exists x, get_double c r = Some x /\ is_nan x = false) df ->
  exists xs,
    map (get_double c) df = map Some xs
    /\ Forall (fun x => is_nan x = false) xs.
Proof.
  induction 1 as [|r df (x & Hx & Hn) _ (xs & IH & Hxs)].
  - exists []. split; [reflexivity|constructor].
  - exists (x :: xs). cbn. rewrite Hx, IH. split; [reflexivity|].
    now constructor.
Qed.

(** In the batch [transform] returns no double column holds a null or a
    NaN. *)
Lemma transform_output_doubles P data w df w' c :
  transform P data w = (Ok df, w') ->
  In c numeric_columns ->
  exists xs,
    map (get_double c) df = map Some xs
    /\ Forall (fun x => is_nan x = false) xs.
Proof.
  intros H Hc. rewrite transform_run in H.
  destruct (forallb _ data); [|discriminate].
  inversion H; subst; clear H. apply column_values.
  apply Forall_forall. intros r Hr. unfold filter_valid in Hr.
  apply filter_In in Hr. destruct Hr as (Hr & _).
  rewrite defaulting_rows in Hr. apply in_map_iff in Hr.
  destruct Hr as (r0 & <- & _). now apply defaulting_row_double.
Qed.

(** The exact value of a finite double, and the arithmetic mean of a list
    of doubles: a double whose exact value is the mean of their exact
    values. *)
Definition real_value (f : float) : option Q :=
  match f with
  | S754_zero _ => Some 0%Q
  | S754_finite s m e => Some (inject_Z (signed s (Zpos m)) * Qpower 2 e)%Q
  | _ => None
  end.

Definition arithmetic_mean (qs : list Q) : Q :=
  (fold_right Qplus 0 qs / inject_Z (Z.of_nat (List.length qs)))%Q.

Definition is_arithmetic_mean (xs : list float) (m : float) : Prop :=
  exists qs q,
    map real_value xs = map Some qs
    /\ real_value m = Some q
    /\ (q == arithmetic_mean qs)%Q.

(** Two records whose longitude is the largest finite double. *)
Definition overflow_batch : list Flight :=
  [ sample_flight (Some (py "a")) (Some 5) (Some fmax) (Some 7);
    sample_flight (Some (py "b")) (Some 6) (Some fmax) (Some 7) ].

(** Scenario D: three records with longitudes 10.0, 20.0, 10.0. *)
Definition scenario_d : list Flight :=
  [ sample_flight (Some (py "a")) (Some 5) (Some f10) (Some 7);
    sample_flight (Some (py "b")) (Some 6) (Some f20) (Some 7);
    sample_flight (Some (py "c")) (Some 6) (Some f10) (Some 7) ].

(** The cut matters: three longitudes whose sum in one partition is [+inf]
    have a finite sum when the first is in a partition of its own. *)
Example partitioned_sum_depends_on_cut :
  let x := float_of_Z (10 ^ 308) in
  let y := float_of_Z (- 10 ^ 308) in
  partitioned_sum [x; x; y] (S754_infinity false)
  /\ partitioned_sum [x; x; y] x.
Proof.
  intros x y. split.
  - exists [[x; x; y]], [partial_sum [x; x; y]].
    split; [reflexivity|]. split; [apply Permutation_refl|].
    vm_compute. reflexivity.
  - exists [[x]; [x; y]], [partial_sum [x]; partial_sum [x; y]].
    split; [reflexivity|]. split; [apply Permutation_refl|].
    vm_compute. reflexivity.
Qed.

(** How far a buffer that has taken only 0.0 and the largest finite double
    has come: 0 for 0.0, 1 for the largest finite double, 2 for [+inf]. *)
Definition overflow_level (f : float) : option nat :=
  match f with
  | S754_zero false => Some 0%nat
  | S754_infinity false => Some 2%nat
  | S754_finite false m e =>
      if (Pos.eqb m 9007199254740991 && (e =? 971))%bool then Some 1%nat
      else None
  | _ => None
  end.

Lemma overflow_level_fmax : overflow_level fmax = Some 1%nat.
Proof. reflexivity. Qed.

Lemma overflow_level_inv f n :
  overflow_level f = Some n ->
  (n = 0%nat /\ f = fzero) \/ (n = 1%nat /\ f = fmax)
  \/ (n = 2%nat /\ f = S754_infinity false).
Proof.
  destruct f as [[]|[]| |[] m e]; unfold overflow_level; try discriminate.
  - intros [= <-]. now left.
  - intros [= <-]. right. now right.
  - destruct (Pos.eqb m 9007199254740991) eqn:Em; [|cbn; discriminate].
    destruct (e =? 971) eqn:Ee; [|cbn; discriminate]. cbn [andb].
    intros [= <-]. apply Pos.eqb_eq in Em. apply Z.eqb_eq in Ee. subst.
    right. now left.
Qed.

Lemma overflow_level_fadd a b n m :
  overflow_level a = Some n -> overflow_level b = Some m ->
  overflow_level (fadd a b) = Some (Nat.min 2 (n + m)).
Proof.
  intros Ha Hb.
  destruct (overflow_level_inv a n Ha) as [[-> ->]|[[-> ->]|[-> ->]]];
    destruct (overflow_level_inv b m Hb) as [[-> ->]|[[-> ->]|[-> ->]]];
    vm_compute; reflexivity.
Qed.

Fixpoint levels (l : list float) : option nat :=
  match l with
  | [] => Some 0%nat
  | f :: l =>
      match overflow_level f, levels l with
      | Some n, Some m => Some (n + m)%nat
      | _, _ => None
      end
  end.

Lemma levels_perm l l' : Permutation l l' -> levels l = levels l'.
Proof.
  induction 1 as [|x l l' _ IH|x y l|l l' l'' _ IH1 _ IH2]; cbn.
  - reflexivity.
  - now rewrite IH.
  - destruct (overflow_level x), (overflow_level y), (levels l); trivial.
    f_equal. lia.
  - congruence.
Qed.

Lemma fold_fadd_level l : forall acc n m,
  overflow_level acc = Some n -> levels l = Some m ->
  overflow_level (fold_left fadd l acc) = Some (Nat.min 2 (n + m)).
Proof.
  induction l as [|x l IH]; intros acc n m Ha Hl;
    cbn [fold_left levels] in *.
  - injection Hl as <-. rewrite Ha. f_equal.
    destruct (overflow_level_inv acc n Ha) as [[-> _]|[[-> _]|[-> _]]];
      reflexivity.
  - destruct (overflow_level x) as [k|] eqn:Ex; [|discriminate].
    destruct (levels l) as [j|] eqn:El; [|discriminate].
    injection Hl as <-.
    rewrite (IH (fadd acc x) (Nat.min 2 (n + k)) j
               (overflow_level_fadd acc x n k Ha Ex) eq_refl).
    apply (f_equal Some). lia.
Qed.

Lemma partial_sums_level partitions : forall n,
  List.concat partitions = repeat fmax n -> (n <= 2)%nat ->
  levels (map partial_sum partitions) = Some n.
Proof.
  induction partitions as [|p ps IH]; intros n H Hn;
    cbn [List.concat map levels] in *.
  - destruct n; [reflexivity|discriminate].
  - symmetry in H. destruct (repeat_eq_app _ _ _ _ H) as (Hp & Hps).
    assert (Hlen : (n = List.length p + List.length (List.concat ps))%nat).
    { rewrite <- (repeat_length fmax n), H. apply length_app. }
    rewrite (IH (List.length (List.concat ps)) (eq_sym Hps)) by lia.
    assert (Hk : overflow_level (partial_sum p) = Some (List.length p)).
    { assert (Hp2 : (List.length p <= 2)%nat) by lia.
      set (k := List.length p) in *. rewrite <- Hp.
      destruct k as [|[|[|k]]]; [reflexivity|reflexivity|reflexivity|lia]. }
    rewrite Hk. now rewrite Hlen.
Qed.

Lemma partitioned_sum_overflows s :
  partitioned_sum [fmax; fmax] s -> s = S754_infinity false.
Proof.
  intros (partitions & arrived & Hc & Hp & ->).
  pose proof (partial_sums_level partitions 2 Hc (le_n 2)) as Hl.
  rewrite (levels_perm _ _ Hp) in Hl.
  pose proof (fold_fadd_level arrived fzero 0 2 eq_refl Hl) as H.
  destruct (overflow_level_inv _ _ H) as [[E _]|[[E _]|[_ E]]];
    [discriminate E|discriminate E|exact E].
Qed.

(** C8 (as stated, refuted). For two longitudes equal to the largest finite
    double the arithmetic mean is that double, but the mean computed is
    [+inf], whatever the engine and however it cuts the column: the double
    sum overflows before the division. *)
Lemma mean_overflows :
  let df := returned (transform sample_platform overflow_batch world0) [] in
  map (get_double Longitude) df = [Some fmax; Some fmax]
  /\ (forall E : engine,
        exists d,
          In (Longitude, d) (calculate_statistics E df)
          /\ d_mean d = Some (S754_infinity false))
  /\ is_arithmetic_mean [fmax; fmax] fmax
  /\ ~ is_arithmetic_mean [fmax; fmax] (S754_infinity false).
Proof.
  cbv zeta.
  assert (Hdf : map (get_double Longitude)
                    (returned (transform sample_platform overflow_batch
                                 world0) [])
                = [Some fmax; Some fmax]) by (vm_compute; reflexivity).
  split; [exact Hdf|split; [|split]].
  - intros E. eexists. split.
    + rewrite calculate_statistics_columns. left. reflexivity.
    + cbn [name d_mean describe]. rewrite Hdf.
      change [Some fmax; Some fmax] with (map Some [fmax; fmax]).
      unfold agg_mean. rewrite agg_count_spec, agg_sum_spec.
      rewrite (partitioned_sum_overflows _ (sum_partitioned E [fmax; fmax])).
      vm_compute. reflexivity.
  - eexists [_; _]. eexists. split; [reflexivity|]. split; [reflexivity|].
    vm_compute. reflexivity.
  - intros (qs & q & _ & Hq & _). discriminate Hq.
Qed.

(** C8 (amended). For every batch [transform] returns, [calculate_statistics]
    has one descriptor for each double column, and for a column with values
    [xs] (never null, never NaN): count is the number of records; mean is
    the double quotient, by the count, of a partitioned sum of [xs] (each
    partition summed in row order, the partial sums added as they arrive);
    min and max are values of [xs] below and above all of them in the
    engine's ordering;
    mode is equal to a value of [xs] that no value outnumbers, ties being
    settled by the engine's sort; for an empty batch mean, min, max and mode
    are null. *)
Theorem statistics_of_transformed_batch :
  forall (P : platform) (E : engine) (data : list Flight) (w : world)
         (df : DataFrame) (w' : world),
    transform P data w = (Ok df, w') ->
    map fst (calculate_statistics E df) = numeric_columns
    /\ forall c d,
         In (c, d) (calculate_statistics E df) ->
         exists xs,
           map (get_double c) df = map Some xs
           /\ Forall (fun x => is_nan x = false) xs
           /\ d_count d = List.length df
           /\ double_mean xs (d_mean d)
           /\ extremum double_leb xs (d_min d)
           /\ extremum double_geb xs (d_max d)
           /\ most_frequent xs (d_mode d)
           /\ (df = [] ->
               d_mean d = None /\ d_min d = None /\ d_max d = None
               /\ d_mode d = None).
Proof.
  intros P E data w df w' H. split; [reflexivity|].
  intros c d Hin. rewrite calculate_statistics_columns in Hin.
  apply in_map_iff in Hin. destruct Hin as (c' & Hcd & Hc).
  inversion Hcd; subst c' d; clear Hcd.
  destruct (transform_output_doubles P data w df w' c H Hc) as (xs & Hxs & Hn).
  exists xs. rewrite Hxs. unfold describe.
  cbn [d_count d_mean d_min d_max d_mode].
  assert (Hlen : List.length xs = List.length df).
  { rewrite <- (length_map Some xs), <- Hxs. apply length_map. }
  repeat split; trivial.
  - now rewrite agg_count_spec.
  - apply agg_mean_spec.
  - apply agg_min_spec.
  - apply agg_max_spec.
  - apply agg_mode_spec.
  - subst df. now destruct xs.
  - subst df. now destruct xs.
  - subst df. now destruct xs.
  - subst df. destruct xs; [|discriminate].
    pose proof (agg_mode_spec E []) as Hm.
    destruct (agg_mode E (map Some [])) as [m|]; [|reflexivity].
    destruct Hm as ((x & [] & _) & _).
Qed.

Lemma statistics_of_transformed_batch_witness :
  let df := returned (transform sample_platform scenario_d world0) [] in
  map fst (calculate_statistics stable_engine df) = numeric_columns
  /\ forall c d,
       In (c, d) (calculate_statistics stable_engine df) ->
       exists xs,
         map (get_double c) df = map Some xs
         /\ Forall (fun x => is_nan x = false) xs
         /\ d_count d = List.length df
         /\ double_mean xs (d_mean d)
         /\ extremum double_leb xs (d_min d)
         /\ extremum double_geb xs (d_max d)
         /\ most_frequent xs (d_mode d)
         /\ (df = [] ->
             d_mean d = None /\ d_min d = None /\ d_max d = None
             /\ d_mode d = None).
Proof.
  intros df.
  apply (statistics_of_transformed_batch sample_platform stable_engine
           scenario_d world0 df
           (snd (transform sample_platform scenario_d world0))).
  vm_compute. reflexivity.
Defined.

(** Scenario D: the longitudes 10.0, 20.0, 10.0 give count 3, mode 10.0,
    min 10.0, max 20.0 and the mean 13.333333333333334 (the double
    [7505999378950827 * 2^-49]). *)
Example scenario_d_longitude :
  let df := returned (transform sample_platform scenario_d world0) [] in
  In (Longitude,
      {| d_mean := Some (S754_finite false 7505999378950827 (-49));
         d_min := Some f10;
         d_max := Some f20;
         d_count := 3;
         d_mode := Some f10 |})
     (calculate_statistics stable_engine df).
Proof. left. vm_compute. reflexivity. Qed.

(** * Further properties of the code *)

(** ** The coercions *)

(** X1. [safe_float_convert] fails in one case only: the value is an
    integer whose nearest double is infinite, and the error is the
    [OverflowError] of [float]. In every other case it returns a double; a
    double is returned as it is (NaN and the infinities too), and neither
    the clock nor the log is touched. *)
Theorem safe_float_convert_failure :
  forall (P : platform) (v : json) (w : world),
    (forall e w',
        safe_float_convert P v w = (Raise e, w')
        <-> e = OverflowError /\ w' = w
            /\ exists z, v = JInt z /\ is_inf (float_of_Z z) = true)
    /\ (forall f, v = JFloat f -> safe_float_convert P v w = (Ok f, w))
    /\ snd (safe_float_convert P v w) = w.
Proof.
  intros P v w. rewrite safe_float_convert_run. cbn [snd].
  split; [|split; [|reflexivity]].
  - intros e w'. split.
    + intros H.
      destruct v as [|b|z|f|s]; cbn in H; try discriminate.
      * destruct (float_of_Z z) eqn:Ez; cbn in H; try discriminate.
        inversion H; subst. repeat split; trivial.
        exists z. now rewrite Ez.
      * destruct (float_of_str P s); cbn in H; discriminate.
    + intros (-> & -> & z & -> & Hz). cbn.
      destruct (float_of_Z z); try discriminate. reflexivity.
  - intros f ->. reflexivity.
Qed.

Lemma safe_float_convert_failure_witness :
  safe_float_convert sample_platform (JFloat S754_nan) world0
  = (Ok S754_nan, world0)
  /\ safe_float_convert sample_platform (JInt (10 ^ 400)) world0
     = (Raise OverflowError, world0).
Proof.
  split.
  - apply (proj1 (proj2 (safe_float_convert_failure sample_platform
                           (JFloat S754_nan) world0))).
    reflexivity.
  - apply (proj1 (safe_float_convert_failure sample_platform
                    (JInt (10 ^ 400)) world0)).
    repeat split. exists (10 ^ 400). split; [reflexivity|].
    now rewrite float_of_huge_int.
Defined.

(** X2. A position time that is falsy (null, false, the integer 0, a zero
    double, the empty string) or any string is replaced by one reading of
    the clock: a genuine epoch 0 cannot be told from a missing value. *)
Theorem safe_timestamp_convert_defaults :
  forall (P : platform) (v : json) (w : world),
    truthy v = false \/ (exists s, v = JStr s) ->
    safe_timestamp_convert P v w
    = (Ok (wall P (ticks w)), mkWorld (S (ticks w)) (log w)).
Proof.
  intros P v w H. rewrite safe_timestamp_convert_run.
  destruct (truthy v) eqn:Ev.
  - destruct H as [H|(s & ->)]; [discriminate|]. reflexivity.
  - reflexivity.
Qed.

Lemma safe_timestamp_convert_defaults_witness :
  safe_timestamp_convert sample_platform (JInt 0) world0
  = (Ok 1700000000000000, mkWorld 1 [])
  /\ safe_timestamp_convert sample_platform (JStr (py "yesterday")) world0
     = (Ok 1700000000000000, mkWorld 1 []).
Proof.
  split.
  - apply (safe_timestamp_convert_defaults sample_platform (JInt 0) world0).
    left. reflexivity.
  - apply (safe_timestamp_convert_defaults sample_platform
             (JStr (py "yesterday")) world0).
    right. eexists. reflexivity.
Defined.

Lemma from_timeval_fits sec :
  tm_min <= sec <= tm_max ->
  (sec <? time_t_min) || (time_t_max <? sec) = false
  /\ (sec <? tm_min) || (tm_max <? sec) = false.
Proof.
  unfold tm_min, tm_max, time_t_min, time_t_max.
  change (2 ^ 63) with 9223372036854775808. intros H.
  split; apply orb_false_iff; split; apply Z.ltb_ge; lia.
Qed.

Lemma from_timeval_in_range sec us :
  datetime_min + max_fold_seconds <= sec <= datetime_max ->
  from_timeval sec us = Ok (sec * 1000000 + us).
Proof.
  intros H. unfold from_timeval.
  destruct (from_timeval_fits sec) as [H1 H2].
  { unfold datetime_min, datetime_max, max_fold_seconds, tm_min, tm_max in *.
    lia. }
  rewrite H1, H2.
  unfold datetime_min, datetime_max, max_fold_seconds in *.
  assert (H3 : (sec <? -62135596800) = false) by (apply Z.ltb_ge; lia).
  assert (H4 : (253402300799 <? sec) = false) by (apply Z.ltb_ge; lia).
  assert (H5 : (sec - 86400 <? -62135596800) = false)
    by (apply Z.ltb_ge; lia).
  now rewrite H3, H4, H5.
Qed.

Lemma from_timeval_year_out_of_range sec us :
  (tm_min <= sec < datetime_min + max_fold_seconds)
  \/ (datetime_max < sec <= tm_max) ->
  from_timeval sec us = Raise ValueError.
Proof.
  intros H. unfold from_timeval.
  destruct (from_timeval_fits sec) as [H1 H2].
  { unfold datetime_min, datetime_max, max_fold_seconds, tm_min, tm_max in *.
    lia. }
  rewrite H1, H2.
  unfold datetime_min, datetime_max, max_fold_seconds, tm_min, tm_max in *.
  destruct (sec <? -62135596800) eqn:H3; [reflexivity|].
  destruct (253402300799 <? sec) eqn:H4; [reflexivity|].
  assert (H5 : (sec - 86400 <? -62135596800) = true).
  { apply Z.ltb_lt. apply Z.ltb_ge in H3, H4. lia. }
  now rewrite H5.
Qed.

(** X3. A non-zero integer epoch from the second day of year 1 to the end
    of year 9999 is converted exactly, to that many seconds, and the clock
    is not read.  An integer outside that span that the platform can still
    break down (the first day of year 1 included, which the look one day
    back refuses) makes [fromtimestamp] raise [ValueError], which is
    handled: the result is a reading of the clock. *)
Theorem safe_timestamp_convert_integer :
  forall (P : platform) (z : Z) (w : world),
    (z <> 0 -> datetime_min + max_fold_seconds <= z <= datetime_max ->
     safe_timestamp_convert P (JInt z) w = (Ok (z * 1000000), w))
    /\ ((tm_min <= z < datetime_min + max_fold_seconds)
        \/ (datetime_max < z <= tm_max) ->
        safe_timestamp_convert P (JInt z) w
        = (Ok (wall P (ticks w)), mkWorld (S (ticks w)) (log w))).
Proof.
  intros P z w. split.
  - intros Hz Hr. rewrite safe_timestamp_convert_run.
    cbn [truthy]. apply Z.eqb_neq in Hz. rewrite Hz. cbn [negb fromtimestamp].
    rewrite (from_timeval_in_range z 0 Hr). now rewrite Z.add_0_r.
  - intros Hr. rewrite safe_timestamp_convert_run.
    assert (Hz : (z =? 0) = false).
    { apply Z.eqb_neq.
      unfold tm_min, datetime_min, datetime_max, tm_max, max_fold_seconds
        in Hr.
      lia. }
    cbn [truthy]. rewrite Hz. cbn [negb fromtimestamp].
    now rewrite (from_timeval_year_out_of_range z 0 Hr).
Qed.

Lemma safe_timestamp_convert_integer_witness :
  safe_timestamp_convert sample_platform (JInt 1699999990) world0
  = (Ok (1699999990 * 1000000), world0)
  /\ safe_timestamp_convert sample_platform (JInt (-62135596800)) world0
     = (Ok 1700000000000000, mkWorld 1 [])
  /\ safe_timestamp_convert sample_platform (JInt (10 ^ 12)) world0
     = (Ok 1700000000000000, mkWorld 1 []).
Proof.
  split; [|split].
  - apply (proj1 (safe_timestamp_convert_integer sample_platform 1699999990
                    world0)).
    + discriminate.
    + unfold datetime_min, datetime_max, max_fold_seconds. lia.
  - apply (proj2 (safe_timestamp_convert_integer sample_platform
                    (-62135596800) world0)).
    left. unfold datetime_min, tm_min, max_fold_seconds. lia.
  - apply (proj2 (safe_timestamp_convert_integer sample_platform (10 ^ 12)
                    world0)).
    right. unfold datetime_max, tm_max. change (10 ^ 12) with 1000000000000.
    lia.
Defined.

(** ** Extraction: status, payload shape, bounds *)

(** X4. Any status other than 200, a success status such as 204 included,
    makes [extract] raise the error that carries the status, before the
    clock is read or the payload looked at. *)
Theorem extract_refuses_other_status :
  forall (P : platform) (resp : response) (w : world),
    status_code resp <> 200 ->
    extract P resp w = (Raise (ApiError (status_code resp)), w).
Proof. intros P resp w H. now apply extract_bad_status. Qed.

Lemma extract_refuses_other_status_witness :
  extract sample_platform
    {| status_code := 204; states := StatesArray [sample_state] |} world0
  = (Raise (ApiError 204), world0).
Proof.
  apply (extract_refuses_other_status sample_platform
           {| status_code := 204; states := StatesArray [sample_state] |}
           world0).
  discriminate.
Defined.

(** X5. With status 200, a payload without a [states] entry gives the empty
    batch (the default of [data.get]), while a [states] entry that is null
    makes [extract] raise [TypeError]: the default does not cover it. In both
    cases the clock has been read once. *)
Theorem extract_states_absent_or_null :
  forall (P : platform) (resp : response) (w : world),
    status_code resp = 200 ->
    (states resp = StatesAbsent ->
     extract P resp w = (Ok [], mkWorld (S (ticks w)) (log w)))
    /\ (states resp = StatesNull ->
        extract P resp w = (Raise TypeError, mkWorld (S (ticks w)) (log w))).
Proof.
  intros P resp w Hst. unfold extract. rewrite Hst.
  cbn [Z.eqb Pos.eqb negb]. split; intros ->; reflexivity.
Qed.

Lemma extract_states_absent_or_null_witness :
  extract sample_platform {| status_code := 200; states := StatesAbsent |}
    world0
  = (Ok [], mkWorld 1 [])
  /\ extract sample_platform {| status_code := 200; states := StatesNull |}
       world0
     = (Raise TypeError, mkWorld 1 []).
Proof.
  split.
  - apply (proj1 (extract_states_absent_or_null sample_platform
                    {| status_code := 200; states := StatesAbsent |} world0
                    eq_refl)).
    reflexivity.
  - apply (proj2 (extract_states_absent_or_null sample_platform
                    {| status_code := 200; states := StatesNull |} world0
                    eq_refl)).
    reflexivity.
Defined.

Lemma nth_error_length {A} (l : list A) i a :
  nth_error l i = Some a -> (i < List.length l)%nat.
Proof. intros H. apply nth_error_Some. congruence. Qed.

Lemma for_states_lengths P sts current_time :
  forall flights w out w',
    for_states P sts current_time flights w = (Ok out, w') ->
    Forall (fun state =>
              (1 <= List.length state)%nat
              /\ (identifier_truthy state = true ->
                  (17 <= List.length state)%nat)) sts.
Proof.
  induction sts as [|state rest IH]; intros flights w out w' H.
  - constructor.
  - cbn [for_states] in H. item_step H.
    pose proof (nth_error_length _ _ _ Hi) as Hlen.
    assert (Hrest : Forall (fun state =>
                      (1 <= List.length state)%nat
                      /\ (identifier_truthy state = true ->
                          (17 <= List.length state)%nat)) rest
                    /\ (truthy s = true -> (17 <= List.length state)%nat)).
    { destruct (truthy s); cbn [negb] in H.
      - bind_step H. split; [now apply IH in H|]. intros _.
        apply flight_of_state_inv in Hc.
        destruct Hc as (s0 & s1 & s2 & s3 & s4 & s5 & s6 & s7 & s8 & s9
                        & s10 & s11 & s13 & s14 & s15 & s16 & tp & lc & lon
                        & lat & baro & vel & trk & vr & geo & w1 & Hn & _).
        destruct Hn as (_ & _ & _ & _ & _ & _ & _ & _ & _ & _ & _ & _ & _ & _
                        & _ & H16).
        apply nth_error_length in H16. lia.
      - split; [now apply IH in H|discriminate]. }
    destruct Hrest as (Hrest & Hkept).
    constructor; trivial. split; [lia|].
    unfold identifier_truthy. now rewrite Hi.
Qed.

(** X6. [extract] indexes the vectors without checking their length: it
    returns only if every state vector has a position 0 and every vector it
    keeps has at least 17 positions; one shorter vector anywhere in the
    payload makes the whole extraction fail. *)
Theorem extract_needs_full_vectors :
  forall (P : platform) (resp : response) (w : world)
         (flights : list Flight) (w' : world) (sts : list (list json)),
    extract P resp w = (Ok flights, w') ->
    states resp = StatesArray sts ->
    Forall (fun state =>
              (1 <= List.length state)%nat
              /\ (identifier_truthy state = true ->
                  (17 <= List.length state)%nat)) sts.
Proof.
  intros P resp w flights w' sts H Hsts. unfold extract in H.
  destruct (negb (status_code resp =? 200)); [discriminate|].
  bind_step H. rewrite Hsts in H. now apply for_states_lengths in H.
Qed.

Lemma extract_needs_full_vectors_witness :
  Forall (fun state =>
            (1 <= List.length state)%nat
            /\ (identifier_truthy state = true ->
                (17 <= List.length state)%nat))
         [sample_state; null_id_state].
Proof.
  apply (extract_needs_full_vectors sample_platform
           (ok_response [sample_state; null_id_state]) world0
           (returned (extract sample_platform
                        (ok_response [sample_state; null_id_state]) world0) [])
           (snd (extract sample_platform
                   (ok_response [sample_state; null_id_state]) world0))).
  - vm_compute. reflexivity.
  - reflexivity.
Defined.

Lemma Forall2_length_eq {A B} (R : A -> B -> Prop) l l' :
  Forall2 R l l' -> List.length l = List.length l'.
Proof. induction 1; cbn; congruence. Qed.

(** X7. With status 200 and an array of state vectors that all have at least
    17 positions, timestamps and numbers within the range the conversions
    accept, [extract] returns a batch, with as many records as there are
    vectors with a truthy identifier. *)
Theorem extract_returns_on_well_formed :
  forall (P : platform) (resp : response) (w : world)
         (sts : list (list json)),
    status_code resp = 200 ->
    states resp = StatesArray sts ->
    Forall well_formed_state sts ->
    exists flights w',
      extract P resp w = (Ok flights, w')
      /\ List.length flights = List.length (filter identifier_truthy sts).
Proof.
  intros P resp w sts Hst Hsts Hwf.
  destruct (extract_total P resp w Hst) as (flights & w' & H).
  - rewrite Hsts. discriminate.
  - intros sts' E. rewrite Hsts in E. inversion E; subst; assumption.
  - exists flights, w'. split; trivial.
    apply extract_inv in H. destruct H as (_ & sts' & [E|[E _]] & HF).
    + rewrite Hsts in E. inversion E; subst sts'.
      symmetry. eapply Forall2_length_eq. exact HF.
    + rewrite Hsts in E. discriminate.
Qed.

Lemma sample_state_well_formed : well_formed_state sample_state.
Proof.
  unfold well_formed_state. split; [cbn; lia|].
  split; repeat constructor.
Qed.

Lemma null_id_state_well_formed : well_formed_state null_id_state.
Proof.
  unfold well_formed_state. split; [cbn; lia|].
  split; repeat constructor.
Qed.

Lemma extract_returns_on_well_formed_witness :
  exists flights w',
    extract sample_platform (ok_response [sample_state; null_id_state]) world0
    = (Ok flights, w')
    /\ List.length flights
       = List.length (filter identifier_truthy [sample_state; null_id_state]).
Proof.
  apply (extract_returns_on_well_formed sample_platform
           (ok_response [sample_state; null_id_state]) world0
           [sample_state; null_id_state]).
  - reflexivity.
  - reflexivity.
  - constructor; [exact sample_state_well_formed|].
    constructor; [exact null_id_state_well_formed|constructor].
Defined.

(** X8. Every record [extract] builds has a value in each of its seventeen
    fields, and all records of a batch carry the same ingestion_time: the
    one reading of the clock taken before the loop. *)
Theorem extract_records_complete :
  forall (P : platform) (resp : response) (w : world)
         (flights : list Flight) (w' : world),
    extract P resp w = (Ok flights, w') ->
    Forall (fun fl => complete fl
                      /\ ingestion_time fl = Some (wall P (ticks w)))
           flights.
Proof.
  intros P resp w flights w' H. apply extract_inv in H.
  destruct H as (_ & sts & _ & HF).
  induction HF as [|state fl l l' Hb _ IH]; constructor; trivial.
  split; [now apply built_from_complete in Hb|].
  now destruct Hb as (_ & _ & Hb).
Qed.

Lemma extract_records_complete_witness :
  Forall (fun fl => complete fl
                    /\ ingestion_time fl = Some (wall sample_platform 0))
         (returned (extract sample_platform
                      (ok_response [sample_state; no_time_state]) world0) []).
Proof.
  apply (extract_records_complete sample_platform
           (ok_response [sample_state; no_time_state]) world0 _
           (snd (extract sample_platform
                   (ok_response [sample_state; no_time_state]) world0))).
  vm_compute. reflexivity.
Defined.

Lemma lstrip_all_space s : forallb is_space s = true -> lstrip s = [].
Proof.
  induction s as [|c s IH]; cbn; [reflexivity|].
  intros H. apply andb_true_iff in H. destruct H as (Hc & Hs).
  rewrite Hc. now apply IH.
Qed.

Lemma strip_all_space s : forallb is_space s = true -> strip s = [].
Proof. intros H. unfold strip. now rewrite (lstrip_all_space s H). Qed.

(** The text neither starts nor ends with a whitespace character. *)
Definition trimmed (c : pystr) : Prop :=
  (forall x t, c = x :: t -> is_space x = false)
  /\ (forall x t, c = t ++ [x] -> is_space x = false).

Lemma trimmed_strip s : trimmed (strip s).
Proof.
  destruct (strip_spec s) as (pre & post & _ & _ & _ & H1 & H2).
  split; assumption.
Qed.

Lemma trimmed_UNKNOWN : trimmed UNKNOWN.
Proof.
  split; intros x t H.
  - inversion H. reflexivity.
  - vm_compute in H.
    do 7 (destruct t as [|? t]; [inversion H; reflexivity|inversion H]).
    destruct t; discriminate.
Qed.

(** X9. The callsign of a built record never starts or ends with
    whitespace; a raw callsign that is a non-empty string of whitespace only
    is kept as the empty string, it does not become "UNKNOWN". *)
Theorem callsign_trimmed :
  forall (P : platform) (state : list json) (current_time : datetime)
         (w : world) (fl : Flight) (w' : world),
    flight_of_state P state current_time w = (Ok fl, w') ->
    exists c,
      callsign fl = Some c /\ trimmed c
      /\ (forall x s,
             nth_error state 1 = Some (JStr (x :: s)) ->
             forallb is_space (x :: s) = true ->
             c = []).
Proof.
  intros P state current_time w fl w' H.
  apply flight_of_state_inv in H.
  destruct H as (s0 & s1 & s2 & s3 & s4 & s5 & s6 & s7 & s8 & s9
                 & s10 & s11 & s13 & s14 & s15 & s16 & tp & lc & lon
                 & lat & baro & vel & trk & vr & geo & w1 & Hn & _ & _ & ->).
  destruct Hn as (_ & H1 & _).
  eexists. split; [reflexivity|]. split.
  - destruct (truthy s1); [apply trimmed_strip|apply trimmed_UNKNOWN].
  - intros x s Hx Hsp. rewrite H1 in Hx. inversion Hx; subst s1.
    cbn [truthy py_str]. now apply strip_all_space.
Qed.

(** The sample vector with a callsign of three spaces. *)
Definition blank_callsign_state : list json :=
  [ JStr (py "3c6444"); JStr (py "   "); JStr (py "Germany");
    JInt 1699999990; JInt 1699999995; JFloat f10; JFloat f20;
    JNull; JBool false; JNull; JNull; JNull; JNull; JNull;
    JNull; JBool false; JInt 0 ].

Lemma callsign_trimmed_witness :
  exists c,
    callsign (returned (flight_of_state sample_platform blank_callsign_state
                          0 world0)
                       (sample_flight None None None None))
    = Some c
    /\ trimmed c
    /\ (forall x s,
           nth_error blank_callsign_state 1 = Some (JStr (x :: s)) ->
           forallb is_space (x :: s) = true ->
           c = []).
Proof.
  apply (callsign_trimmed sample_platform blank_callsign_state 0 world0 _
           (snd (flight_of_state sample_platform blank_callsign_state 0
                   world0))).
  vm_compute. reflexivity.
Defined.

(** ** Transformation: what is dropped, what is kept *)

Lemma filter_map_swap {A B} (f : B -> bool) (g : A -> B) (l : list A) :
  filter f (map g l) = map g (filter (fun a => f (g a)) l).
Proof.
  induction l as [|a l IH]; cbn; [reflexivity|].
  destruct (f (g a)); cbn; now rewrite IH.
Qed.

Lemma valid_defaulting_row ts r :
  is_some (ingestion_time r) = true ->
  valid (defaulting_row ts r) = is_some (icao24 r).
Proof.
  intros H. unfold valid, isNotNull, defaulting_row. cbn.
  rewrite H. destruct (icao24 r), (time_position r); reflexivity.
Qed.

(** X10. The validity filter can only drop the records whose icao24 is
    null: the batch [transform] returns is the defaulted input without
    those records, in the order of the input. A null time_position has been
    filled before the filter runs and a null ingestion_time has been refused
    before. *)
Theorem transform_drops_only_null_icao24 :
  forall (P : platform) (data : list Flight) (w : world)
         (df : DataFrame) (w' : world),
    transform P data w = (Ok df, w') ->
    df = map (defaulting_row (wall P (ticks w)))
             (filter (fun r => is_some (icao24 r)) data)
    /\ List.length df
       = List.length (filter (fun r => is_some (icao24 r)) data).
Proof.
  intros P data w df w' H. rewrite transform_run in H.
  destruct (forallb _ data) eqn:E; [|discriminate].
  inversion H; subst; clear H.
  assert (Heq : filter_valid (defaulting (wall P (ticks w)) data)
                = map (defaulting_row (wall P (ticks w)))
                      (filter (fun r => is_some (icao24 r)) data)).
  { unfold filter_valid. rewrite defaulting_rows, filter_map_swap. f_equal.
    apply filter_ext_in. intros r Hr. rewrite forallb_forall in E.
    apply valid_defaulting_row. now apply E. }
  split; [exact Heq|]. rewrite Heq. apply length_map.
Qed.

Lemma transform_drops_only_null_icao24_witness :
  let df := returned (transform sample_platform sample_batch world0) [] in
  df = map (defaulting_row (wall sample_platform 0))
           (filter (fun r => is_some (icao24 r)) sample_batch)
  /\ List.length df
     = List.length (filter (fun r => is_some (icao24 r)) sample_batch).
Proof.
  intros df.
  apply (transform_drops_only_null_icao24 sample_platform sample_batch world0
           df (snd (transform sample_platform sample_batch world0))).
  vm_compute. reflexivity.
Defined.

(** [r] holds every value [r0] holds: the identifier, the two booleans and
    the ingestion time are the same, null or not, and a string, a timestamp
    or a double other than NaN that [r0] has is the one [r] has. *)
Definition keeps_values (r0 r : Flight) : Prop :=
  icao24 r = icao24 r0
  /\ on_ground r = on_ground r0
  /\ spi r = spi r0
  /\ ingestion_time r = ingestion_time r0
  /\ (forall s, callsign r0 = Some s -> callsign r = Some s)
  /\ (forall s, origin_country r0 = Some s -> origin_country r = Some s)
  /\ (forall s, squawk r0 = Some s -> squawk r = Some s)
  /\ (forall s, position_source r0 = Some s -> position_source r = Some s)
  /\ (forall t, time_position r0 = Some t -> time_position r = Some t)
  /\ (forall t, last_contact r0 = Some t -> last_contact r = Some t)
  /\ (forall c x, get_double c r0 = Some x -> is_nan x = false ->
                  get_double c r = Some x).

Lemma fill_double_keeps d x :
  is_nan x = false -> fill_double d (Some x) = Some x.
Proof. intros H. cbn. now rewrite H. Qed.

Lemma defaulting_row_keeps ts r0 : keeps_values r0 (defaulting_row ts r0).
Proof.
  unfold keeps_values, defaulting_row. cbn.
  repeat split; try (intros ? ->; reflexivity).
  intros c x Hx Hn.
  destruct c; cbn in *; try discriminate; rewrite Hx;
    now apply fill_double_keeps.
Qed.

(** X11. [transform] never overwrites a value: each record of its output
    comes from a record of the input with the same icao24, on_ground, spi
    and ingestion_time, and with every string, timestamp and non-NaN double
    the input record had. In particular a null on_ground or spi stays
    null: the booleans get no default here. *)
Theorem transform_keeps_present_values :
  forall (P : platform) (data : list Flight) (w : world)
         (df : DataFrame) (w' : world),
    transform P data w = (Ok df, w') ->
    Forall (fun r => exists r0, In r0 data /\ keeps_values r0 r) df.
Proof.
  intros P data w df w' H. rewrite transform_run in H.
  destruct (forallb _ data); [|discriminate].
  inversion H; subst; clear H.
  apply Forall_forall. intros r Hr. unfold filter_valid in Hr.
  apply filter_In in Hr. destruct Hr as (Hr & _).
  rewrite defaulting_rows in Hr. apply in_map_iff in Hr.
  destruct Hr as (r0 & <- & Hr0). exists r0. split; trivial.
  apply defaulting_row_keeps.
Qed.

Lemma transform_keeps_present_values_witness :
  Forall (fun r => exists r0, In r0 sample_batch /\ keeps_values r0 r)
         (returned (transform sample_platform sample_batch world0) []).
Proof.
  apply (transform_keeps_present_values sample_platform sample_batch world0 _
           (snd (transform sample_platform sample_batch world0))).
  vm_compute. reflexivity.
Defined.

Lemma complete_defaulting_row ts r :
  complete r ->
  defaulting_row ts r
  = map_columns keep (fun _ o => fill_double fzero o) keep r
  /\ valid (defaulting_row ts r) = true.
Proof.
  intros H.
  pose proof (H Icao24) as H0. pose proof (H Callsign) as H1.
  pose proof (H Origin_country) as H2. pose proof (H Time_position) as H3.
  pose proof (H Last_contact) as H4. pose proof (H Squawk) as H5.
  pose proof (H Position_source) as H6. pose proof (H Ingestion_time) as H7.
  destruct r as [id cs oc tp lc lon lat baro og vel trk vr geo sq sp ps ing].
  cbn in H0, H1, H2, H3, H4, H5, H6, H7.
  destruct id, cs, oc, tp, lc, sq, ps, ing; try discriminate.
  split; reflexivity.
Qed.

Lemma complete_batch_defaulting ts data :
  Forall complete data ->
  filter valid (map (defaulting_row ts) data)
  = map (map_columns keep (fun _ o => fill_double fzero o) keep) data.
Proof.
  induction 1 as [|r data Hr _ IH]; [reflexivity|].
  cbn [map filter].
  destruct (complete_defaulting_row ts r Hr) as (E1 & E2).
  rewrite E2, IH. now rewrite E1.
Qed.

Lemma transform_complete_run P flights w1 :
  Forall complete flights ->
  transform P flights w1
  = (Ok (map (map_columns keep (fun _ o => fill_double fzero o) keep)
             flights),
     mkWorld (S (ticks w1)) (log w1)).
Proof.
  intros H. rewrite transform_run.
  assert (E : forallb (fun r => is_some (ingestion_time r)) flights = true).
  { apply forallb_forall. rewrite Forall_forall in H. intros r Hr.
    apply (H r Hr Ingestion_time). }
  rewrite E. unfold filter_valid. rewrite defaulting_rows.
  now rewrite complete_batch_defaulting.
Qed.

(** X12. Extraction followed by transformation: on the batch [extract]
    built, [transform] does not fail and drops no record, and it changes
    nothing in a record but a NaN double, which becomes 0.0; the defaults
    and the filter of [transform] have nothing left to do. *)
Theorem transform_after_extract :
  forall (P : platform) (resp : response) (w : world)
         (flights : list Flight) (w1 : world),
    extract P resp w = (Ok flights, w1) ->
    transform P flights w1
    = (Ok (map (map_columns keep (fun _ o => fill_double fzero o) keep)
               flights),
       mkWorld (S (ticks w1)) (log w1)).
Proof.
  intros P resp w flights w1 H.
  apply extract_output_complete in H.
  now apply transform_complete_run.
Qed.

(** A vector whose longitude is NaN. *)
Definition nan_longitude_state : list json :=
  [ JStr (py "3c6444"); JStr (py "DLH9LF"); JStr (py "Germany");
    JInt 1699999990; JInt 1699999995; JFloat S754_nan; JFloat f20;
    JNull; JBool false; JNull; JNull; JNull; JNull; JNull;
    JNull; JBool false; JInt 0 ].

Lemma transform_after_extract_witness :
  let run := extract sample_platform
               (ok_response [sample_state; nan_longitude_state]) world0 in
  transform sample_platform (returned run []) (snd run)
  = (Ok (map (map_columns keep (fun _ o => fill_double fzero o) keep)
             (returned run [])),
     mkWorld (S (ticks (snd run))) (log (snd run))).
Proof.
  intros run.
  apply (transform_after_extract sample_platform
           (ok_response [sample_state; nan_longitude_state]) world0
           (returned run []) (snd run)).
  vm_compute. reflexivity.
Defined.

(** ** Statistics: ordering of the descriptors, nulls *)

Lemma double_leb_eqb_r lo x m :
  double_leb lo x = true -> double_eqb x m = true -> double_leb lo m = true.
Proof.
  rewrite !double_leb_iff, double_eqb_iff. intros H E. now rewrite <- E.
Qed.

Lemma double_leb_eqb_l x m hi :
  double_leb x hi = true -> double_eqb x m = true -> double_leb m hi = true.
Proof.
  rewrite !double_leb_iff, double_eqb_iff. intros H E. now rewrite <- E.
Qed.

(** X13. For a non-empty batch [transform] returned, the descriptor of every
    double column has a min, a max and a mode, and they are ordered:
    min <= mode <= max in the engine's ordering of doubles. *)
Theorem statistics_ordered :
  forall (P : platform) (E : engine) (data : list Flight) (w : world)
         (df : DataFrame) (w' : world) (c : column) (d : descriptor),
    transform P data w = (Ok df, w') ->
    df <> [] ->
    In (c, d) (calculate_statistics E df) ->
    exists lo hi m,
      d_min d = Some lo /\ d_max d = Some hi /\ d_mode d = Some m
      /\ double_leb lo m = true /\ double_leb m hi = true
      /\ double_leb lo hi = true.
Proof.
  intros P E data w df w' c d H Hne Hin.
  rewrite calculate_statistics_columns in Hin.
  apply in_map_iff in Hin. destruct Hin as (c' & Hcd & Hc).
  inversion Hcd; subst c' d; clear Hcd.
  destruct (transform_output_doubles P data w df w' c H Hc) as (xs & Hxs & _).
  assert (Hxne : xs <> []).
  { intros ->. destruct df; [now apply Hne|discriminate]. }
  unfold describe. cbn [d_min d_max d_mode]. rewrite Hxs.
  pose proof (agg_min_spec xs) as Hmin.
  pose proof (agg_max_spec xs) as Hmax.
  pose proof (agg_mode_spec E xs) as Hmode.
  destruct (agg_min (map Some xs)) as [lo|]; [|contradiction].
  destruct (agg_max (map Some xs)) as [hi|]; [|contradiction].
  destruct (agg_mode E (map Some xs)) as [m|]; [|contradiction].
  destruct Hmin as (Hlo & Hmin). destruct Hmax as (Hhi & Hmax).
  destruct Hmode as ((x & Hx & Hxm) & _).
  exists lo, hi, m. repeat split; trivial.
  - apply (double_leb_eqb_r lo x m); auto.
  - apply (double_leb_eqb_l x m hi); trivial. apply (Hmax x Hx).
  - apply (Hmin hi Hhi).
Qed.

Lemma statistics_ordered_witness :
  let df := returned (transform sample_platform scenario_d world0) [] in
  exists lo hi m,
    d_min (describe stable_engine (map (get_double Longitude) df)) = Some lo
    /\ d_max (describe stable_engine (map (get_double Longitude) df))
       = Some hi
    /\ d_mode (describe stable_engine (map (get_double Longitude) df))
       = Some m
    /\ double_leb lo m = true /\ double_leb m hi = true
    /\ double_leb lo hi = true.
Proof.
  intros df.
  apply (statistics_ordered sample_platform stable_engine scenario_d world0
           df (snd (transform sample_platform scenario_d world0)) Longitude).
  - vm_compute. reflexivity.
  - vm_compute. discriminate.
  - left. reflexivity.
Defined.

Lemma agg_min_some vs : forall m,
  exists m',
    fold_left (fun acc v =>
                 match v, acc with
                 | None, _ => acc
                 | Some x, None => Some x
                 | Some x, Some m => if double_ltb x m then Some x else Some m
                 end) vs (Some m) = Some m'.
Proof.
  induction vs as [|[x|] vs IH]; intros m; cbn [fold_left]; eauto.
  destruct (double_ltb x m); apply IH.
Qed.

Lemma agg_max_some vs : forall m,
  exists m',
    fold_left (fun acc v =>
                 match v, acc with
                 | None, _ => acc
                 | Some x, None => Some x
                 | Some x, Some m => if double_ltb m x then Some x else Some m
                 end) vs (Some m) = Some m'.
Proof.
  induction vs as [|[x|] vs IH]; intros m; cbn [fold_left]; eauto.
  destruct (double_ltb m x); apply IH.
Qed.

Lemma agg_min_None_iff vs : agg_min vs = None <-> agg_count vs = O.
Proof.
  unfold agg_min, agg_count.
  induction vs as [|[x|] vs IH]; cbn [fold_left filter is_some List.length].
  - tauto.
  - destruct (agg_min_some vs x) as (m' & ->). split; discriminate.
  - exact IH.
Qed.

Lemma agg_max_None_iff vs : agg_max vs = None <-> agg_count vs = O.
Proof.
  unfold agg_max, agg_count.
  induction vs as [|[x|] vs IH]; cbn [fold_left filter is_some List.length].
  - tauto.
  - destruct (agg_max_some vs x) as (m' & ->). split; discriminate.
  - exact IH.
Qed.

Lemma agg_mean_None_iff (E : engine) vs :
  agg_mean E vs = None <-> agg_count vs = O.
Proof.
  unfold agg_mean. destruct (agg_count vs); split; trivial; discriminate.
Qed.

(** X14. On any batch, transformed or not, the statistics of a double
    column leave the nulls out: count is the number of records with a value
    in the column, at most the size of the batch, and mean, min and max are
    null exactly when that count is 0. *)
Theorem statistics_ignore_nulls :
  forall (E : engine) (df : DataFrame) (c : column) (d : descriptor),
    In (c, d) (calculate_statistics E df) ->
    d_count d = List.length (filter (fun r => is_some (get_double c r)) df)
    /\ (d_count d <= List.length df)%nat
    /\ (d_mean d = None <-> d_count d = O)
    /\ (d_min d = None <-> d_count d = O)
    /\ (d_max d = None <-> d_count d = O).
Proof.
  intros E df c d Hin. rewrite calculate_statistics_columns in Hin.
  apply in_map_iff in Hin. destruct Hin as (c' & Hcd & _).
  inversion Hcd; subst c' d; clear Hcd.
  unfold describe. cbn [d_count d_mean d_min d_max].
  assert (Hc : agg_count (map (get_double c) df)
               = List.length (filter (fun r => is_some (get_double c r)) df)).
  { unfold agg_count. rewrite filter_map_swap. apply length_map. }
  split; [exact Hc|]. split.
  - rewrite Hc. apply filter_length_le.
  - split; [apply agg_mean_None_iff|].
    split; [apply agg_min_None_iff|apply agg_max_None_iff].
Qed.

Lemma statistics_ignore_nulls_witness :
  let d := describe stable_engine (map (get_double Longitude) sample_batch) in
  d_count d
  = List.length (filter (fun r => is_some (get_double Longitude r))
                        sample_batch)
  /\ (d_count d <= List.length sample_batch)%nat
  /\ (d_mean d = None <-> d_count d = O)
  /\ (d_min d = None <-> d_count d = O)
  /\ (d_max d = None <-> d_count d = O).
Proof.
  intros d.
  apply (statistics_ignore_nulls stable_engine sample_batch Longitude d).
  left. reflexivity.
Defined.

(** ** The run as a whole *)

(** The batch a run loads: the extracted records, NaN doubles set to 0.0. *)
Definition loaded_batch (raw : list Flight) : DataFrame :=
  map (map_columns keep (fun _ o => fill_double fzero o) keep) raw.

Section RunFacts.

Variable P : platform.
Variable E : engine.

(** The try block, case by case on what the extraction gives. *)
Lemma pipeline_steps_cases resp w :
  match extract P resp w with
  | (Raise e, wx) =>
      pipeline_steps P E resp w
      = (Raise e,
         mkWorld (ticks wx) (log w ++ [Print MsgStarting; Call Extract]))
  | (Ok [], wx) =>
      pipeline_steps P E resp w
      = (Ok tt,
         mkWorld (ticks wx)
                 (log w ++ [Print MsgStarting; Call Extract;
                            Print MsgNoValidData]))
  | (Ok raw, wx) =>
      pipeline_steps P E resp w
      = (match sink P (loaded_batch raw) with
         | None => Ok tt
         | Some e => Raise e
         end,
         mkWorld (S (ticks wx))
                 (log w
                  ++ [Print MsgStarting; Call Extract; Call Transform;
                      Call Statistics]
                  ++ statistics_lines
                       (calculate_statistics E (loaded_batch raw))
                  ++ [Print (MsgNumberOfRecords (List.length raw));
                      Print MsgLoading; Call Load]
                  ++ match sink P (loaded_batch raw) with
                     | None => [Print MsgCompleted]
                     | Some _ => []
                     end))
  end.
Proof.
  destruct (silent_at (extract P resp) w
              ((log w ++ [Print MsgStarting]) ++ [Call Extract])
              (silent_extract P resp)) as (Hx & _).
  destruct (extract P resp w) as [[raw|e] wx] eqn:Ex; cbn [fst snd] in Hx.
  2: { unfold pipeline_steps, call.
       rewrite (bind_ok _ _ _ _ _ (emit_run _ _)).
       erewrite (bind_raise (emit (Call Extract) ;;; extract P resp)).
       2: { rewrite (bind_ok _ _ _ _ _ (emit_run _ _)). cbn [ticks log].
            exact Hx. }
       now rewrite <- app_assoc. }
  destruct raw as [|r0 raw].
  { unfold pipeline_steps, call.
    rewrite (bind_ok _ _ _ _ _ (emit_run _ _)).
    erewrite (bind_ok (emit (Call Extract) ;;; extract P resp)).
    2: { rewrite (bind_ok _ _ _ _ _ (emit_run _ _)). cbn [ticks log].
         exact Hx. }
    cbn [is_empty]. rewrite emit_run. cbn [ticks log].
    now rewrite <- !app_assoc. }
  pose proof (extract_output_complete P resp w _ wx Ex) as Hcomplete.
  set (raw' := r0 :: raw) in *.
  set (l1 := (log w ++ [Print MsgStarting]) ++ [Call Extract]) in *.
  unfold pipeline_steps, call.
  rewrite (bind_ok _ _ _ _ _ (emit_run _ _)).
  erewrite (bind_ok (emit (Call Extract) ;;; extract P resp)).
  2: { rewrite (bind_ok _ _ _ _ _ (emit_run _ _)). cbn [ticks log].
       exact Hx. }
  change (is_empty raw') with false. cbv iota.
  erewrite (bind_ok (emit (Call Transform) ;;; transform P raw')).
  2: { rewrite (bind_ok _ _ _ _ _ (emit_run _ _)). cbn [ticks log].
       apply (transform_complete_run P raw' _ Hcomplete). }
  fold (loaded_batch raw'). cbn [ticks log].
  erewrite bind_ok.
  2: { rewrite (bind_ok _ _ _ _ _ (emit_run _ _)). reflexivity. }
  rewrite (bind_ok _ _ _ _ _ (print_statistics_run _ _)).
  rewrite (bind_ok _ _ _ _ _ (emit_run _ _)).
  cbn [ticks log].
  assert (Hlen : List.length (loaded_batch raw') = List.length raw')
    by apply length_map.
  assert (Hpos : (0 <? List.length (loaded_batch raw'))%nat = true).
  { rewrite Hlen. reflexivity. }
  rewrite Hpos, Hlen.
  rewrite (bind_ok _ _ _ _ _ (emit_run _ _)). cbn [ticks log].
  unfold load. destruct (sink P (loaded_batch raw')) as [e|].
  - erewrite bind_raise.
    2: { rewrite (bind_ok _ _ _ _ _ (emit_run _ _)). reflexivity. }
    unfold l1. cbn [ticks log]. rewrite app_nil_r.
    now rewrite <- !app_assoc.
  - erewrite bind_ok.
    2: { rewrite (bind_ok _ _ _ _ _ (emit_run _ _)). reflexivity. }
    rewrite emit_run. unfold l1. cbn [ticks log].
    now rewrite <- !app_assoc.
Qed.

(** The events a run appends to the log. *)
Definition run_events (resp : response) (w : world) : list event :=
  match extract P resp w with
  | (Raise e, _) =>
      [Print MsgStarting; Call Extract; Print (MsgError e); Call SparkStop]
  | (Ok [], _) =>
      [Print MsgStarting; Call Extract; Print MsgNoValidData; Call SparkStop]
  | (Ok raw, _) =>
      [Print MsgStarting; Call Extract; Call Transform; Call Statistics]
      ++ statistics_lines (calculate_statistics E (loaded_batch raw))
      ++ [Print (MsgNumberOfRecords (List.length raw));
          Print MsgLoading; Call Load]
      ++ match sink P (loaded_batch raw) with
         | None => [Print MsgCompleted; Call SparkStop]
         | Some e => [Print (MsgError e); Call SparkStop]
         end
  end.

(** The outcome of a run. *)
Definition run_outcome (resp : response) (w : world) : outcome unit :=
  match extract P resp w with
  | (Raise e, _) => Raise e
  | (Ok [], _) => Ok tt
  | (Ok raw, _) =>
      match sink P (loaded_batch raw) with
      | None => Ok tt
      | Some e => Raise e
      end
  end.

Lemma run_pipeline_cases resp w :
  fst (run_pipeline P E resp w) = run_outcome resp w
  /\ log (snd (run_pipeline P E resp w)) = log w ++ run_events resp w.
Proof.
  pose proof (pipeline_steps_cases resp w) as H.
  unfold run_pipeline, try_finally, try_reraise, run_outcome, run_events, call.
  destruct (extract P resp w) as [[[|r0 raw]|e] wx]; rewrite H.
  - rewrite (bind_ok _ _ _ _ _ (emit_run _ _)). cbn [ret fst snd ticks log].
    split; [reflexivity|]. now rewrite <- app_assoc.
  - destruct (sink P (loaded_batch (r0 :: raw))) as [e|].
    + rewrite emit_run. cbn [ticks log].
      rewrite (bind_ok _ _ _ _ _ (emit_run _ _)). cbn [ret fst snd ticks log].
      split; [reflexivity|]. rewrite app_nil_r. now rewrite <- !app_assoc.
    + rewrite (bind_ok _ _ _ _ _ (emit_run _ _)). cbn [ret fst snd ticks log].
      split; [reflexivity|]. now rewrite <- !app_assoc.
  - rewrite emit_run. cbn [ticks log].
    rewrite (bind_ok _ _ _ _ _ (emit_run _ _)). cbn [ret fst snd ticks log].
    split; [reflexivity|]. now rewrite <- !app_assoc.
Qed.

End RunFacts.

Definition is_call (e : event) : bool :=
  match e with Call _ => true | Print _ => false end.

(** The stages called, in order. *)
Definition calls (evs : list event) : list event := filter is_call evs.

Lemma calls_statistics_lines statistics :
  calls (statistics_lines statistics) = [].
Proof.
  unfold calls. induction statistics as [|[c stats] rest IH]; cbn; trivial.
Qed.

Lemma statistics_lines_not_notice statistics :
  ~ In (Print MsgNoValidRecords) (statistics_lines statistics)
  /\ ~ In (Print MsgCompleted) (statistics_lines statistics)
  /\ forall e, ~ In (Print (MsgError e)) (statistics_lines statistics).
Proof.
  induction statistics as [|[c stats] rest (IH1 & IH2 & IH3)]; cbn.
  - repeat split; tauto.
  - repeat split.
    + intros [H|[H|[H|[H|[H|[H|H]]]]]]; try discriminate. now apply IH1.
    + intros [H|[H|[H|[H|[H|[H|H]]]]]]; try discriminate. now apply IH2.
    + intros e [H|[H|[H|[H|[H|[H|H]]]]]]; try discriminate.
      now apply (IH3 e).
Qed.

(** X15. Whatever happens in a run, the engine session is released, once and
    last: the events a run appends to the log end with the one call of
    [spark.stop]. *)
Theorem session_always_released :
  forall (P : platform) (E : engine) (resp : response) (w : world),
    exists evs,
      log (snd (run_pipeline P E resp w))
      = log w ++ evs ++ [Call SparkStop]
      /\ ~ In (Call SparkStop) evs.
Proof.
  intros P E resp w.
  destruct (run_pipeline_cases P E resp w) as (_ & ->).
  unfold run_events.
  destruct (extract P resp w) as [[[|r0 raw]|e] wx].
  - exists [Print MsgStarting; Call Extract; Print MsgNoValidData].
    split; [reflexivity|]. intros [H|[H|[H|[]]]]; discriminate.
  - set (st := statistics_lines _).
    destruct (sink P (loaded_batch (r0 :: raw))) as [e|].
    + exists ([Print MsgStarting; Call Extract; Call Transform;
               Call Statistics] ++ st
              ++ [Print (MsgNumberOfRecords (List.length (r0 :: raw)));
                  Print MsgLoading; Call Load; Print (MsgError e)]).
      split; [now rewrite <- !app_assoc|].
      intros H. cbn [app] in H.
      destruct H as [H|[H|[H|[H|H]]]]; try discriminate.
      apply in_app_or in H. destruct H as [H|[H|[H|[H|[H|[]]]]]];
        try discriminate.
      now apply statistics_lines_no_call in H.
    + exists ([Print MsgStarting; Call Extract; Call Transform;
               Call Statistics] ++ st
              ++ [Print (MsgNumberOfRecords (List.length (r0 :: raw)));
                  Print MsgLoading; Call Load; Print MsgCompleted]).
      split; [now rewrite <- !app_assoc|].
      intros H. cbn [app] in H.
      destruct H as [H|[H|[H|[H|H]]]]; try discriminate.
      apply in_app_or in H. destruct H as [H|[H|[H|[H|[H|[]]]]]];
        try discriminate.
      now apply statistics_lines_no_call in H.
  - exists [Print MsgStarting; Call Extract; Print (MsgError e)].
    split; [reflexivity|]. intros [H|[H|[H|[]]]]; discriminate.
Qed.

(** X16. A run fails only with an error of the extraction or of the write
    to the store (never with one of the transformation); the error is
    printed, the session released, and the same error raised again. A run
    that returns has printed no error. *)
Theorem run_errors_reported :
  forall (P : platform) (E : engine) (resp : response) (w : world),
    (forall e,
        fst (run_pipeline P E resp w) = Raise e ->
        (fst (extract P resp w) = Raise e
         \/ exists raw,
              fst (extract P resp w) = Ok raw
              /\ sink P (loaded_batch raw) = Some e)
        /\ exists evs,
             log (snd (run_pipeline P E resp w))
             = log w ++ evs ++ [Print (MsgError e); Call SparkStop])
    /\ (fst (run_pipeline P E resp w) = Ok tt ->
        exists evs,
          log (snd (run_pipeline P E resp w)) = log w ++ evs
          /\ forall e, ~ In (Print (MsgError e)) evs).
Proof.
  intros P E resp w.
  destruct (run_pipeline_cases P E resp w) as (-> & ->).
  unfold run_outcome, run_events.
  destruct (extract P resp w) as [[[|r0 raw]|e0] wx]; cbn [fst].
  - split; [discriminate|]. intros _. eexists. split; [reflexivity|].
    intros e [H|[H|[H|[H|[]]]]]; discriminate.
  - set (st := statistics_lines _).
    destruct (sink P (loaded_batch (r0 :: raw))) as [e0|] eqn:Es.
    + split; [|discriminate]. intros e H. inversion H; subst e0. split.
      * right. exists (r0 :: raw). now split.
      * exists ([Print MsgStarting; Call Extract; Call Transform;
                 Call Statistics] ++ st
                ++ [Print (MsgNumberOfRecords (List.length (r0 :: raw)));
                    Print MsgLoading; Call Load]).
        now rewrite <- !app_assoc.
    + split; [discriminate|]. intros _. eexists. split; [reflexivity|].
      intros e H. cbn [app] in H.
      destruct H as [H|[H|[H|[H|H]]]]; try discriminate.
      apply in_app_or in H. destruct H as [H|[H|[H|[H|[H|[H|[]]]]]]];
        try discriminate.
      now apply (proj2 (proj2 (statistics_lines_not_notice _)) e) in H.
  - split; [|discriminate]. intros e H. inversion H; subst e0. split.
    + now left.
    + now exists [Print MsgStarting; Call Extract].
Qed.

Lemma run_errors_reported_witness :
  (exists evs,
      log (snd (run_pipeline sample_platform stable_engine
                  (ok_response [huge_longitude_state]) world0))
      = log world0 ++ evs ++ [Print (MsgError OverflowError); Call SparkStop])
  /\ exists evs,
       log (snd (run_pipeline sample_platform stable_engine
                   (ok_response [sample_state]) world0))
       = log world0 ++ evs
       /\ forall e, ~ In (Print (MsgError e)) evs.
Proof.
  split.
  - apply (proj1 (run_errors_reported sample_platform stable_engine
                    (ok_response [huge_longitude_state]) world0)
             OverflowError).
    vm_compute. reflexivity.
  - apply (proj2 (run_errors_reported sample_platform stable_engine
                    (ok_response [sample_state]) world0)).
    vm_compute. reflexivity.
Defined.

(** X17. A run on a response whose status is not 200 calls the extraction
    and nothing else: it prints the error that carries the status, releases
    the session and raises that error. *)
Theorem run_on_other_status :
  forall (P : platform) (E : engine) (resp : response) (w : world),
    status_code resp <> 200 ->
    fst (run_pipeline P E resp w) = Raise (ApiError (status_code resp))
    /\ log (snd (run_pipeline P E resp w))
       = log w ++ [Print MsgStarting; Call Extract;
                   Print (MsgError (ApiError (status_code resp)));
                   Call SparkStop].
Proof.
  intros P E resp w H.
  destruct (run_pipeline_cases P E resp w) as (-> & ->).
  unfold run_outcome, run_events.
  now rewrite (extract_bad_status P resp w H).
Qed.

Lemma run_on_other_status_witness :
  fst (run_pipeline sample_platform stable_engine
         {| status_code := 503; states := StatesAbsent |} world0)
  = Raise (ApiError 503)
  /\ log (snd (run_pipeline sample_platform stable_engine
                 {| status_code := 503; states := StatesAbsent |} world0))
     = log world0 ++ [Print MsgStarting; Call Extract;
                      Print (MsgError (ApiError 503)); Call SparkStop].
Proof.
  apply (run_on_other_status sample_platform stable_engine
           {| status_code := 503; states := StatesAbsent |} world0).
  discriminate.
Defined.

(** X18. A run never stops halfway: it calls either Extract and
    [spark.stop] only, or Extract, Transform, Statistics, Load and
    [spark.stop], in this order. The branch that prints "No valid records to
    load" is never taken, because [transform] drops none of the records
    [extract] builds. *)
Theorem run_stage_order :
  forall (P : platform) (E : engine) (resp : response) (w : world),
    exists evs,
      log (snd (run_pipeline P E resp w)) = log w ++ evs
      /\ (calls evs = [Call Extract; Call SparkStop]
          \/ calls evs = [Call Extract; Call Transform; Call Statistics;
                          Call Load; Call SparkStop])
      /\ ~ In (Print MsgNoValidRecords) evs.
Proof.
  intros P E resp w.
  destruct (run_pipeline_cases P E resp w) as (_ & ->).
  exists (run_events P E resp w). split; [reflexivity|].
  unfold run_events.
  destruct (extract P resp w) as [[[|r0 raw]|e] wx].
  - split; [now left|]. intros [H|[H|[H|[H|[]]]]]; discriminate.
  - set (st := statistics_lines _). split.
    + right. unfold calls. cbn [app filter is_call].
      rewrite filter_app. fold (calls st). unfold st.
      rewrite calls_statistics_lines.
      destruct (sink P (loaded_batch (r0 :: raw))); reflexivity.
    + intros H. cbn [app] in H.
      destruct H as [H|[H|[H|[H|H]]]]; try discriminate.
      apply in_app_or in H. destruct H as [H|[H|[H|[H|H]]]];
        try discriminate.
      * now apply (proj1 (statistics_lines_not_notice _)) in H.
      * destruct (sink P (loaded_batch (r0 :: raw)));
          destruct H as [H|[H|[]]]; discriminate.
  - split; [now left|]. intros [H|[H|[H|[H|[]]]]]; discriminate.
Qed.

(** X19. When the extraction gives a non-empty batch, the run reports as
    the number of records to load the number of extracted records, hands
    that batch (NaN doubles set to 0.0) to the store, and ends as the write
    ends: it returns and prints the completion notice when the store accepts
    the batch, and fails with the store's error, without that notice, when
    the store refuses it. *)
Theorem run_loads_extracted_batch :
  forall (P : platform) (E : engine) (resp : response) (w : world)
         (raw : list Flight) (wx : world),
    extract P resp w = (Ok raw, wx) ->
    raw <> [] ->
    List.length (loaded_batch raw) = List.length raw
    /\ fst (run_pipeline P E resp w)
       = match sink P (loaded_batch raw) with
         | None => Ok tt
         | Some e => Raise e
         end
    /\ exists evs,
         log (snd (run_pipeline P E resp w)) = log w ++ evs
         /\ In (Print (MsgNumberOfRecords (List.length raw))) evs
         /\ In (Call Load) evs
         /\ (In (Print MsgCompleted) evs
             <-> sink P (loaded_batch raw) = None).
Proof.
  intros P E resp w raw wx Hx Hne.
  split; [apply length_map|].
  destruct (run_pipeline_cases P E resp w) as (-> & ->).
  unfold run_outcome, run_events. rewrite Hx.
  destruct raw as [|r0 raw]; [now elim Hne|].
  split; [reflexivity|].
  set (st := statistics_lines _).
  eexists. split; [reflexivity|].
  split; [|split].
  - cbn [app]. do 4 right. apply in_or_app. right. now left.
  - cbn [app]. do 4 right. apply in_or_app. right. right. right. now left.
  - split.
    + intros H. cbn [app] in H.
      destruct H as [H|[H|[H|[H|H]]]]; try discriminate.
      apply in_app_or in H. destruct H as [H|[H|[H|[H|H]]]];
        try discriminate.
      * now apply (proj1 (proj2 (statistics_lines_not_notice _))) in H.
      * destruct (sink P (loaded_batch (r0 :: raw))); [|reflexivity].
        destruct H as [H|[H|[]]]; discriminate.
    + intros ->. cbn [app]. do 4 right. apply in_or_app. right.
      do 3 right. now left.
Qed.

Lemma run_loads_extracted_batch_witness :
  let run := extract sample_platform
               (ok_response [sample_state; no_time_state]) world0 in
  let raw := returned run [] in
  List.length (loaded_batch raw) = List.length raw
  /\ fst (run_pipeline sample_platform stable_engine
            (ok_response [sample_state; no_time_state]) world0)
     = match sink sample_platform (loaded_batch raw) with
       | None => Ok tt
       | Some e => Raise e
       end
  /\ exists evs,
       log (snd (run_pipeline sample_platform stable_engine
                   (ok_response [sample_state; no_time_state]) world0))
       = log world0 ++ evs
       /\ In (Print (MsgNumberOfRecords (List.length raw))) evs
       /\ In (Call Load) evs
       /\ (In (Print MsgCompleted) evs
           <-> sink sample_platform (loaded_batch raw) = None).
Proof.
  intros run raw.
  apply (run_loads_extracted_batch sample_platform stable_engine
           (ok_response [sample_state; no_time_state]) world0 raw (snd run)).
  - vm_compute. reflexivity.
  - vm_compute. discriminate.
Defined.

(** ** The store bootstrap: [init_cassandra]

    The store, once connected, is a set of keyspaces and, per keyspace and
    table name, the rows of a table; the names it holds are the names as the
    store reads them.  The code puts the text of [self.keyspace], unquoted,
    in the place of the keyspace name of three statements.  How the store
    reads that text is the store's: an unquoted name is folded to lower
    case, a quoted one is taken as written, and text that is no name (the
    empty text, [my-ks], a reserved word) makes the store refuse the
    statement.  The three statements are [CREATE KEYSPACE IF NOT EXISTS]
    and [DROP TABLE IF EXISTS], which fail only when refused, and
    [CREATE TABLE], which also fails when the keyspace is missing or the
    table exists. *)

Record cassandra : Type := mkCassandra {
  keyspaces : list string;
  tables : list (string * string * list Flight)
}.

Inductive cql_error : Type :=
| SyntaxException
| InvalidRequest
| AlreadyExists.

Inductive executed : Type :=
| Applied (st : cassandra)
| Failed (e : cql_error).

(** The store's reading of the text in the place of a keyspace name: the
    keyspace named, or the error with which the statement is refused. *)
Inductive reading : Type :=
| Names (ks : string)
| Refused (e : cql_error).

Record cql : Type := {
  read_keyspace : string -> reading
}.

(** The statements of [init_cassandra], with the text interpolated for the
    keyspace; the table name is written in the statement. *)
Inductive statement : Type :=
| CreateKeyspaceIfNotExists (keyspace : string)
| DropTableIfExists (keyspace table : string)
| CreateTable (keyspace table : string).

Definition has_keyspace (ks : string) (st : cassandra) : bool :=
  existsb (String.eqb ks) (keyspaces st).

(** [entry] is the table [t] of keyspace [ks], both as the store reads
    them. *)
Definition names (ks t : string) (entry : string * string * list Flight)
  : bool :=
  String.eqb ks (fst (fst entry)) && String.eqb t (snd (fst entry)).

(** The rows of table [ks.t], [None] when there is no such table. *)
Definition table_rows (ks t : string) (st : cassandra)
  : option (list Flight) :=
  option_map snd (find (names ks t) (tables st)).

Definition create_keyspace_if_not_exists (ks : string) (st : cassandra)
  : cassandra :=
  if has_keyspace ks st then st
  else mkCassandra (ks :: keyspaces st) (tables st).

Definition drop_table_if_exists (ks t : string) (st : cassandra)
  : cassandra :=
  mkCassandra (keyspaces st)
              (filter (fun entry => negb (names ks t entry)) (tables st)).

Definition create_table (ks t : string) (st : cassandra) : executed :=
  if negb (has_keyspace ks st) then Failed InvalidRequest
  else match table_rows ks t st with
       | Some _ => Failed AlreadyExists
       | None => Applied (mkCassandra (keyspaces st)
                                      ((ks, t, []) :: tables st))
       end.

(** [session.execute]: the store reads the keyspace text, refuses the
    statement or applies it to the keyspace read. *)
Definition execute (R : cql) (s : statement) (st : cassandra) : executed :=
  match s with
  | CreateKeyspaceIfNotExists keyspace =>
      match read_keyspace R keyspace with
      | Names ks => Applied (create_keyspace_if_not_exists ks st)
      | Refused e => Failed e
      end
  | DropTableIfExists keyspace t =>
      match read_keyspace R keyspace with
      | Names ks => Applied (drop_table_if_exists ks t st)
      | Refused e => Failed e
      end
  | CreateTable keyspace t =>
      match read_keyspace R keyspace with
      | Names ks => create_table ks t st
      | Refused e => Failed e
      end
  end.

Definition and_then (r : executed) (k : cassandra -> executed) : executed :=
  match r with
  | Applied st => k st
  | Failed e => Failed e
  end.

(** [init_cassandra], on a store that accepted the connection: the three
    statements in order, an error of one ending the method. *)
Definition init_cassandra (R : cql) (keyspace : string) (st : cassandra)
  : executed :=
  and_then (execute R (CreateKeyspaceIfNotExists keyspace) st) (fun st1 =>
  and_then (execute R (DropTableIfExists keyspace "flights") st1) (fun st2 =>
  execute R (CreateTable keyspace "flights") st2)).

(** A reader for plain unquoted names: a letter followed by letters, digits
    and underscores, folded to lower case; any other text is refused.  It
    knows neither quoted names nor the store's reserved words. *)
Definition is_upper (c : ascii) : bool :=
  ((65 <=? nat_of_ascii c) && (nat_of_ascii c <=? 90))%nat.

Definition is_lower (c : ascii) : bool :=
  ((97 <=? nat_of_ascii c) && (nat_of_ascii c <=? 122))%nat.

Definition is_name_char (c : ascii) : bool :=
  is_upper c || is_lower c
  || ((48 <=? nat_of_ascii c) && (nat_of_ascii c <=? 57))%nat
  || (nat_of_ascii c =? 95)%nat.

Definition to_lower (c : ascii) : ascii :=
  if is_upper c then ascii_of_nat (nat_of_ascii c + 32) else c.

Definition unquoted_name (text : string) : reading :=
  match list_ascii_of_string text with
  | [] => Refused SyntaxException
  | c :: cs =>
      if (is_upper c || is_lower c) && forallb is_name_char cs
      then Names (string_of_list_ascii (map to_lower (c :: cs)))
      else Refused SyntaxException
  end.

Definition sample_cql : cql := {| read_keyspace := unquoted_name |}.

Lemma has_keyspace_created ks st :
  has_keyspace ks (create_keyspace_if_not_exists ks st) = true.
Proof.
  unfold create_keyspace_if_not_exists.
  destruct (has_keyspace ks st) eqn:E; [exact E|].
  unfold has_keyspace. cbn. now rewrite String.eqb_refl.
Qed.

Lemma has_keyspace_other ks ks' st :
  ks' <> ks ->
  has_keyspace ks' (create_keyspace_if_not_exists ks st)
  = has_keyspace ks' st.
Proof.
  intros H. unfold create_keyspace_if_not_exists.
  destruct (has_keyspace ks st); [reflexivity|].
  unfold has_keyspace. cbn. apply String.eqb_neq in H. now rewrite H.
Qed.

Lemma find_dropped ks t l :
  find (names ks t) (filter (fun entry => negb (names ks t entry)) l) = None.
Proof.
  induction l as [|entry l IH]; cbn; [reflexivity|].
  destruct (names ks t entry) eqn:E; cbn; [exact IH|]. now rewrite E.
Qed.

Lemma names_other ks t ks' t' entry :
  (ks', t') <> (ks, t) ->
  names ks' t' entry = true -> names ks t entry = false.
Proof.
  intros Hne H. unfold names in *. apply andb_true_iff in H.
  destruct H as (H1 & H2). apply String.eqb_eq in H1, H2.
  destruct (String.eqb ks (fst (fst entry))) eqn:E1; [|reflexivity].
  destruct (String.eqb t (snd (fst entry))) eqn:E2; [|reflexivity].
  apply String.eqb_eq in E1, E2. exfalso. apply Hne. congruence.
Qed.

Lemma find_other_dropped ks t ks' t' l :
  (ks', t') <> (ks, t) ->
  find (names ks' t') (filter (fun entry => negb (names ks t entry)) l)
  = find (names ks' t') l.
Proof.
  intros Hne. induction l as [|entry l IH]; cbn; [reflexivity|].
  destruct (names ks' t' entry) eqn:E'.
  - rewrite (names_other ks t ks' t' entry Hne E'). cbn. now rewrite E'.
  - destruct (names ks t entry); cbn; [exact IH|]. now rewrite E'.
Qed.

Lemma filter_negb_twice {A} (f : A -> bool) (l : list A) :
  filter (fun a => negb (f a)) (filter (fun a => negb (f a)) l)
  = filter (fun a => negb (f a)) l.
Proof.
  induction l as [|a l IH]; cbn; [reflexivity|].
  destruct (f a) eqn:E; cbn; [exact IH|]. rewrite E. cbn. now rewrite IH.
Qed.

(** The store [init_cassandra] leaves when the text is read as [ks]. *)
Definition initialised (ks : string) (st : cassandra) : cassandra :=
  mkCassandra
    (keyspaces (create_keyspace_if_not_exists ks st))
    ((ks, "flights"%string, [])
       :: filter (fun entry => negb (names ks "flights" entry))
                 (tables st)).

Lemma init_cassandra_refused R keyspace st e :
  read_keyspace R keyspace = Refused e ->
  init_cassandra R keyspace st = Failed e.
Proof. intros H. unfold init_cassandra, execute. now rewrite H. Qed.

Lemma init_cassandra_run R keyspace ks st :
  read_keyspace R keyspace = Names ks ->
  init_cassandra R keyspace st = Applied (initialised ks st).
Proof.
  intros H. unfold init_cassandra, execute. rewrite H. cbn [and_then].
  unfold create_table.
  assert (Hk : has_keyspace ks
                 (drop_table_if_exists ks "flights"
                    (create_keyspace_if_not_exists ks st)) = true).
  { unfold drop_table_if_exists, has_keyspace. cbn [keyspaces].
    apply (has_keyspace_created ks st). }
  rewrite Hk. cbn [negb].
  unfold table_rows, drop_table_if_exists. cbn [tables keyspaces].
  rewrite find_dropped. cbn [option_map]. unfold initialised.
  unfold create_keyspace_if_not_exists.
  destruct (has_keyspace ks st); reflexivity.
Qed.

Lemma init_cassandra_applied R keyspace st st' :
  init_cassandra R keyspace st = Applied st' ->
  exists ks, read_keyspace R keyspace = Names ks /\ st' = initialised ks st.
Proof.
  intros H. destruct (read_keyspace R keyspace) as [ks|e] eqn:E.
  - rewrite (init_cassandra_run R keyspace ks st E) in H.
    exists ks. split; [reflexivity|]. now inversion H.
  - rewrite (init_cassandra_refused R keyspace st e E) in H. discriminate.
Qed.

Lemma initialised_has_keyspace ks st :
  has_keyspace ks (initialised ks st) = true.
Proof.
  unfold initialised, has_keyspace. cbn [keyspaces].
  apply (has_keyspace_created ks st).
Qed.


(** A store with rows in [aviation.flights] and two other tables. *)
Definition sample_store : cassandra :=
  {| keyspaces := ["aviation"; "weather"]%string;
     tables :=
       [ ("aviation", "flights", sample_batch);
         ("aviation", "airports", scenario_d);
         ("weather", "flights", overflow_batch) ]%string |}.


(** With the sample reader: the text [my-ks] and the empty text are
    refused; the text [Aviation] names the keyspace [aviation], whose
    flights table loses its rows. *)
Example init_cassandra_reads_the_name :
  init_cassandra sample_cql "my-ks" sample_store = Failed SyntaxException
  /\ init_cassandra sample_cql EmptyString sample_store
     = Failed SyntaxException
  /\ table_rows "aviation" "flights" sample_store = Some sample_batch
  /\ exists st',
       init_cassandra sample_cql "Aviation" sample_store = Applied st'
       /\ keyspaces st' = ["aviation"; "weather"]%string
       /\ table_rows "aviation" "flights" st' = Some [].
Proof.
  split; [reflexivity|]. split; [reflexivity|]. split; [reflexivity|].
  eexists. split; [reflexivity|]. split; reflexivity.
Qed.

(** X21. When [init_cassandra] succeeds, the store read the text as a
    keyspace [ks] and nothing but [ks.flights] is touched: every other
    table, in that keyspace or another, keeps its rows, and the other
    keyspaces are as they were. *)
Theorem init_cassandra_keeps_other_tables :
  forall (R : cql) (keyspace : string) (st st' : cassandra),
    init_cassandra R keyspace st = Applied st' ->
    exists ks,
      read_keyspace R keyspace = Names ks
      /\ (forall k t,
             (k, t) <> (ks, "flights"%string) ->
             table_rows k t st' = table_rows k t st)
      /\ (forall k, k <> ks -> has_keyspace k st' = has_keyspace k st)
      /\ (forall k, has_keyspace k st = true -> has_keyspace k st' = true).
Proof.
  intros R keyspace st st' H.
  destruct (init_cassandra_applied R keyspace st st' H) as (ks & E & ->).
  exists ks. split; [exact E|]. split; [|split].
  - intros k t Hne. unfold table_rows, initialised. cbn [tables find].
    destruct (names k t (ks, "flights"%string, [])) eqn:En.
    + exfalso. unfold names in En. cbn [fst snd] in En.
      apply andb_true_iff in En. destruct En as (E1 & E2).
      apply String.eqb_eq in E1, E2. apply Hne. congruence.
    + now rewrite (find_other_dropped ks "flights" k t _ Hne).
  - intros k Hne. unfold initialised, has_keyspace. cbn [keyspaces].
    apply (has_keyspace_other ks k st Hne).
  - intros k Hk. unfold initialised, has_keyspace. cbn [keyspaces].
    destruct (String.eqb_spec k ks) as [->|Hne].
    + apply (has_keyspace_created ks st).
    + fold (has_keyspace k (create_keyspace_if_not_exists ks st)).
      now rewrite (has_keyspace_other ks k st Hne).
Qed.

Lemma init_cassandra_keeps_other_tables_witness :
  let st' := initialised "aviation" sample_store in
  exists ks,
    read_keyspace sample_cql "Aviation" = Names ks
    /\ (forall k t,
           (k, t) <> (ks, "flights"%string) ->
           table_rows k t st' = table_rows k t sample_store)
    /\ (forall k, k <> ks ->
                  has_keyspace k st' = has_keyspace k sample_store)
    /\ (forall k, has_keyspace k sample_store = true ->
                  has_keyspace k st' = true).
Proof.
  intros st'.
  apply (init_cassandra_keeps_other_tables sample_cql "Aviation"
           sample_store st').
  reflexivity.
Defined.

(** X22. [init_cassandra] is idempotent: run on the store it left, it leaves
    that store again. *)
Theorem init_cassandra_idempotent :
  forall (R : cql) (keyspace : string) (st st' : cassandra),
    init_cassandra R keyspace st = Applied st' ->
    init_cassandra R keyspace st' = Applied st'.
Proof.
  intros R keyspace st st' H.
  destruct (init_cassandra_applied R keyspace st st' H) as (ks & E & ->).
  rewrite (init_cassandra_run R keyspace ks _ E). f_equal.
  assert (Ht : filter (fun entry => negb (names ks "flights" entry))
                      (tables (initialised ks st))
               = filter (fun entry => negb (names ks "flights" entry))
                        (tables st)).
  { unfold initialised. cbn [tables filter].
    unfold names at 1. cbn [fst snd]. rewrite !String.eqb_refl.
    cbn [andb negb]. apply filter_negb_twice. }
  unfold initialised at 1. unfold create_keyspace_if_not_exists.
  rewrite initialised_has_keyspace, Ht. reflexivity.
Qed.

Lemma init_cassandra_idempotent_witness :
  init_cassandra sample_cql "aviation" (initialised "aviation" sample_store)
  = Applied (initialised "aviation" sample_store).
Proof.
  apply (init_cassandra_idempotent sample_cql "aviation" sample_store).
  reflexivity.
Defined.
